(** * TaskFlow front end: checkout initiation and payment-status polling

    A shallow embedding of the three pieces of the client that take part in
    the subscription upgrade flow:

    - [utils/api.js]            : [getAuthHeaders] and [paymentAPI];
    - [pages/OrganizationPage.js]: [handleUpgrade] and the package picker;
    - [pages/PaymentSuccess.js] : the component state, [pollPaymentStatus]
                                  and the mount effect that starts it.

    JavaScript values are a small JSON-like datatype, objects are finite
    maps, browser storage is a finite map from keys to strings.  The
    asynchronous code is split at its single [await]: what runs before it
    (the request) and what runs once the promise has settled (the
    continuation).  Timers, in-flight requests and React's hook state are
    explicit fields of a world that a scheduler drives event by event. *)

From stdpp Require Import gmap strings list fin_maps.

#[local] Set Warnings "-register-all".
#[local] Open Scope string_scope.
#[local] Open Scope list_scope.
#[local] Open Scope nat_scope.

(* ===================================================================== *)
(** ** JavaScript values *)
(* ===================================================================== *)

Module Js.

(** Values that can come out of a decoded JSON body, plus [undefined].
    Numbers are restricted to integers: the code below never computes
    with a number taken from a response, it only tests truthiness. *)
Inductive JsVal : Type :=
  | JUndefined
  | JNull
  | JBool (b : bool)
  | JNum (n : Z)
  | JStr (s : string)
  | JArr (l : list JsVal)
  | JObj (o : gmap string JsVal).

(** [v == null], i.e. [v] is [null] or [undefined]. *)
Definition nullish (v : JsVal) : bool :=
  match v with
  | JUndefined | JNull => true
  | _ => false
  end.

(** ToBoolean. *)
Definition truthy (v : JsVal) : bool :=
  match v with
  | JUndefined | JNull => false
  | JBool b => b
  | JNum n => negb (n =? 0)%Z
  | JStr s => negb (bool_decide (s = ""))
  | JArr _ | JObj _ => true
  end.

(** [v.k] for a key [k] that is not a built-in member of a primitive
    wrapper or of arrays (the keys read by this program are [url],
    [payment_status], [data] and [detail]).  Reading a member of
    [null] or [undefined] throws a TypeError: [None]. *)
Definition get_prop (v : JsVal) (k : string) : option JsVal :=
  match v with
  | JUndefined | JNull => None
  | JObj o => Some (default JUndefined (o !! k))
  | _ => Some JUndefined
  end.

(** [v?.k]: short-circuits to [undefined] on a nullish receiver. *)
Definition opt_chain (v : JsVal) (k : string) : JsVal :=
  if nullish v then JUndefined else default JUndefined (get_prop v k).

(** [a || b]. *)
Definition or_else (a b : JsVal) : JsVal := if truthy a then a else b.

(** [v === 'lit'] for a string literal. *)
Definition strict_eq_str (v : JsVal) (lit : string) : bool :=
  match v with
  | JStr s => bool_decide (s = lit)
  | _ => false
  end.

(** The value returned by [Storage.getItem] or [URLSearchParams.get]:
    a string, or [null] ([None]). *)
Definition truthy_str (v : option string) : bool :=
  match v with
  | Some s => negb (bool_decide (s = ""))
  | None => false
  end.

(** Conversion of such a value inside a template literal. *)
Definition template (v : option string) : string :=
  match v with
  | Some s => s
  | None => "null"
  end.

(** What a rejected axios promise, or a runtime TypeError, carries as far
    as the handlers look: the [response] member, [undefined] when no
    response was received (network failure) and on a TypeError. *)
Record Thrown := { response : JsVal }.

Definition TypeError : Thrown := {| response := JUndefined |}.

(** Outcome of an axios promise.  It fulfils with a response object, of
    which the callers read only [data] (the decoded body), or rejects. *)
Inductive Settled :=
  | Fulfilled (data : JsVal)
  | Rejected (error : Thrown).

End Js.

(* ===================================================================== *)
(** ** utils/api.js *)
(* ===================================================================== *)

Module api.
Import Js.

Inductive Method := GET | POST.

(** The arguments handed to [axios.get] / [axios.post]: target, body and
    the [headers] member of the config object. *)
Record Request := {
  method : Method;
  url : string;
  data : option JsVal;
  headers : gmap string string
}.

Section WithEnvironment.
  (** [process.env.REACT_APP_BACKEND_URL], fixed at build time. *)
Variable BACKEND_URL : string.
  (** The browser's [localStorage]. *)
Variable localStorage : gmap string string.

Definition API_BASE : string := BACKEND_URL +:+ "/api".

Definition getAuthHeaders : gmap string string :=
    let token := localStorage !! "token" in
    if truthy_str token
    then {[ "Authorization" := "Bearer " +:+ template token ]}
    else ∅.

  (** [paymentAPI.createCheckout] *)
Definition createCheckout (body : JsVal) : Request :=
    {| method := POST;
       url := API_BASE +:+ "/payments/checkout";
       data := Some body;
       headers := getAuthHeaders |}.

  (** [paymentAPI.getStatus] *)
Definition getStatus (sessionId : option string) : Request :=
    {| method := GET;
       url := API_BASE +:+ "/payments/status/" +:+ template sessionId;
       data := None;
       headers := getAuthHeaders |}.

(** The requests [paymentAPI] can produce. *)
Definition payment_requests (body : JsVal) (sessionId : option string) : list Request :=
  [createCheckout body; getStatus sessionId].

End WithEnvironment.

End api.

(* ===================================================================== *)
(** ** pages/OrganizationPage.js *)
(* ===================================================================== *)

Module OrganizationPage.
Import Js.



(** The [useState] cells of the component. *)
Record State := {
  organization : JsVal;
  members : JsVal;
  stats : JsVal;
  loading : bool;
  inviteDialogOpen : bool;
  paymentDialogOpen : bool;
  selectedPackage : string
}.

Definition initial : State :=
  {| organization := JNull;
     members := JArr [];
     stats := JNull;
     loading := true;
     inviteDialogOpen := false;
     paymentDialogOpen := false;
     selectedPackage := "starter" |}.

(** What the handlers of the payment dialog do to the outside. *)
Inductive Effect :=
  | AxiosRequest (r : api.Request)
  | LocationAssign (v : JsVal)          (* window.location.href = v, accepted *)
  | ToastError (msg : JsVal)            (* toast.error(msg) *)
  | SetSelectedPackage (p : string)     (* setSelectedPackage(p) *)
  | SetPaymentDialogOpen (b : bool).    (* setPaymentDialogOpen(b) *)

(** React applies the state setters among the effects. *)
Definition apply_effect (st : State) (e : Effect) : State :=
  match e with
  | SetSelectedPackage p =>
      {| organization := organization st; members := members st;
         stats := stats st; loading := loading st;
         inviteDialogOpen := inviteDialogOpen st;
         paymentDialogOpen := paymentDialogOpen st;
         selectedPackage := p |}
  | SetPaymentDialogOpen b =>
      {| organization := organization st; members := members st;
         stats := stats st; loading := loading st;
         inviteDialogOpen := inviteDialogOpen st;
         paymentDialogOpen := b;
         selectedPackage := selectedPackage st |}
  | AxiosRequest _ | LocationAssign _ | ToastError _ => st
  end.

Definition page_after (st : State) (effs : list Effect) : State :=
  foldl apply_effect st effs.





Section WithEnvironment.
Variable BACKEND_URL : string.
Variable localStorage : gmap string string.
  (** [useParams().orgId] *)
Variable orgId : string.

  (** The object literal passed to [paymentAPI.createCheckout]. *)
Definition checkout_body (st : State) : JsVal :=
    JObj {[ "package_id" := JStr (selectedPackage st);
            "org_id" := JStr orgId ]}.

  (** The argument of [toast.error] in the [catch] block. *)
Definition catch_message (error : Thrown) : JsVal :=
    or_else (opt_chain (opt_chain (response error) "data") "detail")
            (JStr "Failed to create checkout session").

(** The [href] setter of the browser's [Location] object: it converts the
    value to a string and parses it as a URL against the base URL of the
    document.  [true] when the parser accepts it and the navigation starts,
    [false] when it fails, in which case the setter throws. *)
Variable href_accepts : JsVal -> bool.

(** What the setter throws.  Like every exception that does not come from
    axios it has no [response] member. *)
Definition SyntaxError : Thrown := {| response := JUndefined |}.

(** [handleUpgrade], given how the checkout request settles.  The effects
    are listed in the order in which they happen.  The assignment to
    [window.location.href] is inside the [try]: when the setter throws,
    the [catch] block runs. *)
Definition handleUpgrade (st : State) (reply : Settled) : list Effect :=
    AxiosRequest (api.createCheckout BACKEND_URL localStorage (checkout_body st)) ::
    match reply with
    | Fulfilled data =>
        match get_prop data "url" with
        | Some u =>
            if href_accepts u then [LocationAssign u]
            else [ToastError (catch_message SyntaxError)]
        | None => [ToastError (catch_message TypeError)]
        end
    | Rejected error => [ToastError (catch_message error)]
    end.

End WithEnvironment.

(** A browser for the concrete runs.  Its setter refuses the strings that
    are a scheme with nothing after it, which no URL parser accepts, and
    takes every other value; [undefined] is among them, since it is
    converted to the relative reference [undefined].  Only the values of
    the concrete runs matter. *)
Definition sample_href_accepts (v : JsVal) : bool :=
  match v with
  | JStr s => negb (bool_decide (s ∈ ["http://"; "https://"]))
  | _ => true
  end.

(** The requests among the effects, in order. *)
Definition requests (effs : list Effect) : list api.Request :=
  omap (λ e, match e with AxiosRequest r => Some r | _ => None end) effs.

Definition is_navigation (e : Effect) : bool :=
  match e with LocationAssign _ => true | _ => false end.

Definition is_error_toast (e : Effect) : bool :=
  match e with ToastError _ => true | _ => false end.

End OrganizationPage.


(* ===================================================================== *)
(** ** pages/PaymentSuccess.js *)
(* ===================================================================== *)

Module PaymentSuccess.
Import Js.

Inductive Status := checking | success | timeout | error.

(** The two [useState] cells. *)
Record Hooks := {
  status : Status;
  attempts : nat
}.

Definition initial : Hooks := {| status := checking; attempts := 0 |}.

(** The function value [pollPaymentStatus] built by one execution of the
    component body.  [const [attempts, setAttempts] = useState(0)] and
    [const sessionId = ...] bind constants of that execution, and the arrow
    function closes over them: these are its free variables (the setters,
    [toast] and [paymentAPI] are the same in every render).  The name
    [pollPaymentStatus] inside the body, the argument of [setTimeout], is
    the [const] of the same execution: it refers to this very value. *)
Record Closure := {
  cl_attempts : nat;
  cl_sessionId : option string
}.

Inductive Effect :=
  | GetStatus (r : api.Request)           (* paymentAPI.getStatus(sessionId) *)
  | SetStatus (s : Status)                (* setStatus(s) *)
  | SetAttemptsSucc                       (* setAttempts(prev => prev + 1) *)
  | SetTimeout (cb : Closure) (ms : Z)    (* setTimeout(cb, ms) *)
  | ToastSuccess (msg : string)           (* toast.success(msg) *)
  | ToastError (msg : string).            (* toast.error(msg) *)

(** An [async] function with one [await]: the request it starts when it is
    called, and the rest of its body, run when that request has settled. *)
Record Async := {
  request : api.Request;
  resume : Settled -> list Effect
}.

Definition maxAttempts : nat := 5.

Section WithEnvironment.
Variable BACKEND_URL : string.
Variable localStorage : gmap string string.

(** The [catch] block. *)
Definition on_catch : list Effect :=
  [SetStatus error; ToastError "Failed to verify payment status"].

Definition pollPaymentStatus (self : Closure) : Async :=
  {| request := api.getStatus BACKEND_URL localStorage (cl_sessionId self);
     resume := fun reply =>
       match reply with
       | Rejected _ => on_catch
       | Fulfilled data =>
           match get_prop data "payment_status" with
           | None => on_catch
           | Some payment_status =>
               if strict_eq_str payment_status "paid" then
                 [SetStatus success; ToastSuccess "Payment successful!"]
               else if cl_attempts self <? maxAttempts then
                 [SetAttemptsSucc; SetTimeout self 2000]
               else
                 [SetStatus timeout;
                  ToastError "Payment verification timed out. Please contact support."]
           end
       end |}.

(** One execution of the component body: the closure it creates from the
    current hook state. *)
Definition render (sessionId : option string) (h : Hooks) : Closure :=
  {| cl_attempts := attempts h; cl_sessionId := sessionId |}.

(** The page at run time.  [hooks] is the state React keeps for the
    component and [rendered] the closure of its latest render; [inflight]
    holds the calls of [pollPaymentStatus] suspended at their [await] and
    [timers] the callbacks registered with [setTimeout] that have not run
    yet; [trace] logs every effect in the order it happened. *)
Record World := {
  mounted : bool;
  sessionId : option string;
  hooks : Hooks;
  rendered : Closure;
  inflight : list Closure;
  timers : list Closure;
  trace : list Effect
}.

(** A state update: React stores the new state and runs the component body
    again.  On a component that is no longer mounted the update is
    dropped. *)
Definition set_hooks (h : Hooks) (w : World) : World :=
  if mounted w then
    {| mounted := true; sessionId := sessionId w;
       hooks := h; rendered := render (sessionId w) h;
       inflight := inflight w; timers := timers w; trace := trace w |}
  else w.

Definition log (e : Effect) (w : World) : World :=
  {| mounted := mounted w; sessionId := sessionId w;
     hooks := hooks w; rendered := rendered w;
     inflight := inflight w; timers := timers w;
     trace := trace w ++ [e] |}.

Definition perform (w : World) (e : Effect) : World :=
  let w := log e w in
  match e with
  | SetStatus s =>
      set_hooks {| status := s; attempts := attempts (hooks w) |} w
  | SetAttemptsSucc =>
      set_hooks {| status := status (hooks w); attempts := S (attempts (hooks w)) |} w
  | SetTimeout cb _ =>
      {| mounted := mounted w; sessionId := sessionId w;
         hooks := hooks w; rendered := rendered w;
         inflight := inflight w; timers := timers w ++ [cb];
         trace := trace w |}
  | GetStatus _ | ToastSuccess _ | ToastError _ => w
  end.

(** Calling a closure: the request goes out and the call is suspended. *)
Definition call (c : Closure) (w : World) : World :=
  let w := log (GetStatus (request (pollPaymentStatus c))) w in
  {| mounted := mounted w; sessionId := sessionId w;
     hooks := hooks w; rendered := rendered w;
     inflight := inflight w ++ [c]; timers := timers w;
     trace := trace w |}.

(** First render and its effect.  The effect has [sessionId] as its only
    dependency, so it runs after the first render and not again while the
    URL stays the same; it returns no clean-up function.  Later renders
    build new closures ([rendered]), which nothing calls: the poll that is
    re-scheduled is always the closure that scheduled it. *)
Definition mount (sid : option string) : World :=
  let w := {| mounted := true; sessionId := sid;
              hooks := initial; rendered := render sid initial;
              inflight := []; timers := []; trace := [] |} in
  if truthy_str sid then call (rendered w) w else w.

(** What the event loop can do next. *)
Inductive Event :=
  | Settle (i : nat) (reply : Settled)   (* the i-th pending request settles *)
  | Fire (i : nat)                       (* the i-th pending timer expires *)
  | Unmount.                             (* the page is left *)

Definition step (w : World) (ev : Event) : option World :=
  match ev with
  | Settle i reply =>
      c ← inflight w !! i;
      let w' := {| mounted := mounted w; sessionId := sessionId w;
                   hooks := hooks w; rendered := rendered w;
                   inflight := delete i (inflight w); timers := timers w;
                   trace := trace w |} in
      Some (foldl perform w' (resume (pollPaymentStatus c) reply))
  | Fire i =>
      c ← timers w !! i;
      let w' := {| mounted := mounted w; sessionId := sessionId w;
                   hooks := hooks w; rendered := rendered w;
                   inflight := inflight w; timers := delete i (timers w);
                   trace := trace w |} in
      Some (call c w')
  | Unmount =>
      if mounted w then
        Some {| mounted := false; sessionId := sessionId w;
                hooks := hooks w; rendered := rendered w;
                inflight := inflight w; timers := timers w;
                trace := trace w |}
      else None
  end.

Fixpoint run (w : World) (evs : list Event) : option World :=
  match evs with
  | [] => Some w
  | ev :: evs => w' ← step w ev; run w' evs
  end.

End WithEnvironment.

Definition is_query (e : Effect) : bool :=
  match e with GetStatus _ => true | _ => false end.

(** Number of status queries issued so far. *)
Definition queries (w : World) : nat :=
  length (filter (fun e => is_query e = true) (trace w)).

(** The callbacks handed to [setTimeout] by a list of effects. *)
Definition scheduled (effs : list Effect) : list Closure :=
  omap (λ e, match e with SetTimeout cb _ => Some cb | _ => None end) effs.

(** Calls of [pollPaymentStatus] that are suspended or waiting for a timer. *)
Definition pending (w : World) : nat := length (inflight w) + length (timers w).

Definition is_settle (ev : Event) : bool :=
  match ev with Settle _ _ => true | _ => false end.

(** Number of query outcomes delivered by a schedule. *)
Definition settled (evs : list Event) : nat :=
  length (filter (fun ev => is_settle ev = true) evs).

(** A response body reporting [payment_status]. *)
Definition body (payment_status : string) : JsVal :=
  JObj {[ "payment_status" := JStr payment_status ]}.

(** A response body whose [payment_status] can be read and is not the
    string [paid]. *)
Definition not_paid (data : JsVal) : bool :=
  match get_prop data "payment_status" with
  | Some v => negb (strict_eq_str v "paid")
  | None => false
  end.

(** The schedule of a session that answers the successive queries with the
    bodies [replies]: each answer is delivered, then the timer set by its
    continuation expires. *)
Definition never_paid (replies : list JsVal) : list Event :=
  replies ≫= λ data, [Settle 0 (Fulfilled data); Fire 0].

Definition is_timeout (e : Effect) : bool :=
  match e with SetStatus timeout => true | _ => false end.

(** Every call that is suspended or waiting for its timer runs the closure
    of the first render, and [timeout] has not been set. *)
Definition first_render_only (w : World) : Prop :=
  (∀ c, c ∈ inflight w ++ timers w -> cl_attempts c = 0) ∧
  status (hooks w) ≠ timeout ∧
  filter (λ e, is_timeout e = true) (trace w) = [].

End PaymentSuccess.


(* ===================================================================== *)
(** ** utils/api.js: the other API objects *)
(* ===================================================================== *)

(** The arguments of one axios call, for the calls that also use [patch],
    [delete], query parameters, or no config object at all. *)
Module axios.
Import Js.

Inductive Verb := Get | Post | Patch | Delete.

(** The config object: [{ params, headers }]. *)
Record Config := {
  params : option JsVal;
  headers : gmap string string
}.

Record Call := {
  verb : Verb;
  target : string;
  payload : option JsVal;
  config : option Config
}.

(** The headers a call passes to axios: none without a config object. *)
Definition sent_headers (c : Call) : gmap string string :=
  match config c with
  | Some cfg => headers cfg
  | None => ∅
  end.

End axios.

(** Identifiers spliced into a URL are taken as the strings the template
    literal turns them into. *)
Module authAPI.
Import Js axios.
Section WithEnvironment.
Variable BACKEND_URL : string.
Variable localStorage : gmap string string.

Definition register (data : JsVal) : Call :=
  {| verb := Post; target := api.API_BASE BACKEND_URL +:+ "/auth/register";
     payload := Some data; config := None |}.

Definition login (data : JsVal) : Call :=
  {| verb := Post; target := api.API_BASE BACKEND_URL +:+ "/auth/login";
     payload := Some data; config := None |}.

Definition getMe : Call :=
  {| verb := Get; target := api.API_BASE BACKEND_URL +:+ "/auth/me";
     payload := None;
     config := Some {| params := None; headers := api.getAuthHeaders localStorage |} |}.

End WithEnvironment.
End authAPI.

Module organizationAPI.
Import Js axios.
Section WithEnvironment.
Variable BACKEND_URL : string.
Variable localStorage : gmap string string.

Definition auth_config : option Config :=
  Some {| params := None; headers := api.getAuthHeaders localStorage |}.

Definition create (data : JsVal) : Call :=
  {| verb := Post; target := api.API_BASE BACKEND_URL +:+ "/organizations";
     payload := Some data; config := auth_config |}.

Definition getAll : Call :=
  {| verb := Get; target := api.API_BASE BACKEND_URL +:+ "/organizations";
     payload := None; config := auth_config |}.

Definition getOne (orgId : string) : Call :=
  {| verb := Get;
     target := api.API_BASE BACKEND_URL +:+ "/organizations/" +:+ orgId;
     payload := None; config := auth_config |}.

Definition invite (orgId : string) (data : JsVal) : Call :=
  {| verb := Post;
     target := api.API_BASE BACKEND_URL +:+ "/organizations/" +:+ orgId +:+ "/invite";
     payload := Some data; config := auth_config |}.

Definition getMembers (orgId : string) : Call :=
  {| verb := Get;
     target := api.API_BASE BACKEND_URL +:+ "/organizations/" +:+ orgId +:+ "/members";
     payload := None; config := auth_config |}.

Definition getStats (orgId : string) : Call :=
  {| verb := Get;
     target := api.API_BASE BACKEND_URL +:+ "/organizations/" +:+ orgId +:+ "/stats";
     payload := None; config := auth_config |}.

End WithEnvironment.
End organizationAPI.

Module taskAPI.
Import Js axios.
Section WithEnvironment.
Variable BACKEND_URL : string.
Variable localStorage : gmap string string.

Definition tasks_url (orgId : string) : string :=
  api.API_BASE BACKEND_URL +:+ "/organizations/" +:+ orgId +:+ "/tasks".

Definition task_url (orgId taskId : string) : string :=
  api.API_BASE BACKEND_URL +:+ "/organizations/" +:+ orgId +:+ "/tasks/" +:+ taskId.

Definition create (orgId : string) (data : JsVal) : Call :=
  {| verb := Post; target := tasks_url orgId; payload := Some data;
     config := Some {| params := None; headers := api.getAuthHeaders localStorage |} |}.

Definition getAll (orgId : string) (query : JsVal) : Call :=
  {| verb := Get; target := tasks_url orgId; payload := None;
     config := Some {| params := Some query; headers := api.getAuthHeaders localStorage |} |}.

Definition getOne (orgId taskId : string) : Call :=
  {| verb := Get; target := task_url orgId taskId; payload := None;
     config := Some {| params := None; headers := api.getAuthHeaders localStorage |} |}.

Definition update (orgId taskId : string) (data : JsVal) : Call :=
  {| verb := Patch; target := task_url orgId taskId; payload := Some data;
     config := Some {| params := None; headers := api.getAuthHeaders localStorage |} |}.

Definition delete (orgId taskId : string) : Call :=
  {| verb := Delete; target := task_url orgId taskId; payload := None;
     config := Some {| params := None; headers := api.getAuthHeaders localStorage |} |}.

End WithEnvironment.
End taskAPI.

Module adminAPI.
Import Js axios.
Section WithEnvironment.
Variable BACKEND_URL : string.
Variable localStorage : gmap string string.

Definition getConfig : Call :=
  {| verb := Get; target := api.API_BASE BACKEND_URL +:+ "/admin/config";
     payload := None;
     config := Some {| params := None; headers := api.getAuthHeaders localStorage |} |}.

Definition updateConfig (data : JsVal) : Call :=
  {| verb := Post; target := api.API_BASE BACKEND_URL +:+ "/admin/config";
     payload := Some data;
     config := Some {| params := None; headers := api.getAuthHeaders localStorage |} |}.

Definition deleteConfig (keyName : string) : Call :=
  {| verb := Delete;
     target := api.API_BASE BACKEND_URL +:+ "/admin/config/" +:+ keyName;
     payload := None;
     config := Some {| params := None; headers := api.getAuthHeaders localStorage |} |}.

Definition makeAdmin (userId : string) : Call :=
  {| verb := Post;
     target := api.API_BASE BACKEND_URL +:+ "/admin/make-admin/" +:+ userId;
     payload := Some (JObj ∅);
     config := Some {| params := None; headers := api.getAuthHeaders localStorage |} |}.

End WithEnvironment.
End adminAPI.

(** Every call the API objects of [api.js] can make, the payment ones
    included, for given arguments. *)
Module apiCalls.
Import Js axios.

Record Args := {
  a_data : JsVal;
  a_query : JsVal;
  a_orgId : string;
  a_taskId : string;
  a_keyName : string;
  a_userId : string;
  a_sessionId : option string
}.

(** A payment request seen as a call. *)
Definition of_request (r : api.Request) : Call :=
  {| verb := match api.method r with api.GET => Get | api.POST => Post end;
     target := api.url r;
     payload := api.data r;
     config := Some {| params := None; headers := api.headers r |} |}.

Section WithEnvironment.
Variable BACKEND_URL : string.
Variable localStorage : gmap string string.

(** [authAPI.register] and [authAPI.login]. *)
Definition anonymous (a : Args) : list Call :=
  [authAPI.register BACKEND_URL (a_data a); authAPI.login BACKEND_URL (a_data a)].

(** All the others. *)
Definition authenticated (a : Args) : list Call :=
  [authAPI.getMe BACKEND_URL localStorage;
   organizationAPI.create BACKEND_URL localStorage (a_data a);
   organizationAPI.getAll BACKEND_URL localStorage;
   organizationAPI.getOne BACKEND_URL localStorage (a_orgId a);
   organizationAPI.invite BACKEND_URL localStorage (a_orgId a) (a_data a);
   organizationAPI.getMembers BACKEND_URL localStorage (a_orgId a);
   organizationAPI.getStats BACKEND_URL localStorage (a_orgId a);
   taskAPI.create BACKEND_URL localStorage (a_orgId a) (a_data a);
   taskAPI.getAll BACKEND_URL localStorage (a_orgId a) (a_query a);
   taskAPI.getOne BACKEND_URL localStorage (a_orgId a) (a_taskId a);
   taskAPI.update BACKEND_URL localStorage (a_orgId a) (a_taskId a) (a_data a);
   taskAPI.delete BACKEND_URL localStorage (a_orgId a) (a_taskId a);
   of_request (api.createCheckout BACKEND_URL localStorage (a_data a));
   of_request (api.getStatus BACKEND_URL localStorage (a_sessionId a));
   adminAPI.getConfig BACKEND_URL localStorage;
   adminAPI.updateConfig BACKEND_URL localStorage (a_data a);
   adminAPI.deleteConfig BACKEND_URL localStorage (a_keyName a);
   adminAPI.makeAdmin BACKEND_URL localStorage (a_userId a)].

End WithEnvironment.
End apiCalls.

(** Pieces shared by the event handlers of the pages. *)
Module Handlers.
Import Js.

(** [error.response?.data?.detail || fallback] *)
Definition detail_or (error : Thrown) (fallback : string) : JsVal :=
  or_else (opt_chain (opt_chain (response error) "data") "detail") (JStr fallback).

(** [new FormData(e.target)], the first value of each named control. *)
Abbreviation FormData := (gmap string string).

(** [formData.get(name)] *)
Definition form_get (form : FormData) (name : string) : option string := form !! name.

(** A [string | null] as a value. *)
Definition of_nullable (v : option string) : JsVal :=
  match v with
  | Some s => JStr s
  | None => JNull
  end.

(** [v || null] for a [string | null]. *)
Definition or_null (v : option string) : JsVal :=
  if truthy_str v then of_nullable v else JNull.

(** [await Promise.all(requests)] as far as the callers look: the bodies of
    all the responses in order when every request is fulfilled, otherwise
    a rejection (whose reason the callers ignore). *)
Fixpoint all_fulfilled (replies : list Settled) : option (list JsVal) :=
  match replies with
  | [] => Some []
  | Fulfilled data :: rest => cons data <$> all_fulfilled rest
  | Rejected _ :: _ => None
  end.

End Handlers.

(* ===================================================================== *)
(** ** pages/Dashboard.js *)
(* ===================================================================== *)

Module Dashboard.
Import Js.

(** What [handleLogout] does to the outside. *)
Inductive Effect :=
  | RemoveItem (key : string)             (* localStorage.removeItem(key) *)
  | SetUser (v : JsVal)                   (* the setter passed down by App *)
  | Navigate (to : string)                (* navigate(to) *)
  | ToastSuccess (msg : string).          (* toast.success(msg) *)

Definition handleLogout : list Effect :=
  [RemoveItem "token";
   RemoveItem "user";
   SetUser JNull;
   Navigate "/auth";
   ToastSuccess "Logged out successfully"].

(** What a list of effects does to the browser storage. *)
Definition storage_after (storage : gmap string string) (effs : list Effect)
    : gmap string string :=
  foldl (λ s e, match e with RemoveItem k => delete k s | _ => s end) storage effs.

(** The last value handed to [setUser], if any. *)
Definition user_after (user : JsVal) (effs : list Effect) : JsVal :=
  foldl (λ u e, match e with SetUser v => v | _ => u end) user effs.

End Dashboard.

(* ===================================================================== *)
(** ** App.js: session restore and the route table *)
(* ===================================================================== *)

Module App.
Import Js.

Record State := {
  user : JsVal;
  loading : bool
}.

Definition initial : State := {| user := JNull; loading := true |}.

Section WithParser.
(** [JSON.parse]; [None] when it throws. *)
Variable JSON_parse : string -> option JsVal.

(** The mount effect, run on [initial]: the state it leaves, or [None] when
    [JSON.parse] throws, in which case [setLoading(false)] is not
    reached. *)
Definition restore (localStorage : gmap string string) : option State :=
  let token := localStorage !! "token" in
  let userData := localStorage !! "user" in
  if truthy_str token && truthy_str userData then
    parsed ← JSON_parse (template userData);
    Some {| user := parsed; loading := false |}
  else
    Some {| user := user initial; loading := false |}.

End WithParser.

Inductive Page :=
  | AuthPage
  | DashboardPage
  | OrganizationPage (orgId : string)
  | TasksPage (orgId : string)
  | AdminPage
  | PaymentSuccess
  | PaymentCancel.

(** The entry of the route table that matches the current location;
    [NoMatch] when none does. *)
Inductive Route :=
  | AuthRoute                             (* /auth *)
  | DashboardRoute                        (* /dashboard *)
  | OrganizationRoute (orgId : string)    (* /organization/:orgId *)
  | TasksRoute (orgId : string)           (* /organization/:orgId/tasks *)
  | AdminRoute                            (* /admin *)
  | PaymentSuccessRoute                   (* /payment-success *)
  | PaymentCancelRoute                    (* /payment-cancel *)
  | RootRoute                             (* / *)
  | NoMatch.

(** What is rendered.  [NavigateTo r] stands for [<Navigate to=...>] with
    the path of the entry [r]. *)
Inductive Element :=
  | LoadingScreen
  | Render (p : Page)
  | NavigateTo (r : Route)
  | Nothing.

Definition ProtectedRoute (st : State) (children : Element) : Element :=
  if loading st then LoadingScreen
  else if negb (truthy (user st)) then NavigateTo AuthRoute
  else children.

(** The element of each entry of the table. *)
Definition element (st : State) (r : Route) : Element :=
  match r with
  | AuthRoute => if truthy (user st) then NavigateTo DashboardRoute else Render AuthPage
  | DashboardRoute => ProtectedRoute st (Render DashboardPage)
  | OrganizationRoute orgId => ProtectedRoute st (Render (OrganizationPage orgId))
  | TasksRoute orgId => ProtectedRoute st (Render (TasksPage orgId))
  | AdminRoute => ProtectedRoute st (Render AdminPage)
  | PaymentSuccessRoute => ProtectedRoute st (Render PaymentSuccess)
  | PaymentCancelRoute => ProtectedRoute st (Render PaymentCancel)
  | RootRoute => NavigateTo (if truthy (user st) then DashboardRoute else AuthRoute)
  | NoMatch => Nothing
  end.

(** The component body. *)
Definition App (st : State) (r : Route) : Element :=
  if loading st then LoadingScreen else element st r.

Definition protected (p : Page) : bool :=
  match p with AuthPage => false | _ => true end.

End App.

(* ===================================================================== *)
(** ** pages/OrganizationPage.js: loading the data, inviting a member *)
(* ===================================================================== *)

Module OrganizationData.
Import Js Handlers.

Inductive Effect :=
  | PreventDefault
  | Request (c : axios.Call)
  | SetOrganization (v : JsVal)
  | SetMembers (v : JsVal)
  | SetStats (v : JsVal)
  | SetLoading (b : bool)
  | SetInviteDialogOpen (b : bool)
  | FetchData                             (* fetchData(), not awaited *)
  | FormReset
  | ToastSuccess (msg : string)
  | ToastError (msg : JsVal).

Definition apply_effect (st : OrganizationPage.State) (e : Effect) : OrganizationPage.State :=
  let '{| OrganizationPage.organization := o; OrganizationPage.members := m;
          OrganizationPage.stats := s; OrganizationPage.loading := l;
          OrganizationPage.inviteDialogOpen := i;
          OrganizationPage.paymentDialogOpen := p;
          OrganizationPage.selectedPackage := k |} := st in
  match e with
  | SetOrganization v => OrganizationPage.Build_State v m s l i p k
  | SetMembers v => OrganizationPage.Build_State o v s l i p k
  | SetStats v => OrganizationPage.Build_State o m v l i p k
  | SetLoading b => OrganizationPage.Build_State o m s b i p k
  | SetInviteDialogOpen b => OrganizationPage.Build_State o m s l b p k
  | _ => st
  end.

Definition page_after (st : OrganizationPage.State) (effs : list Effect)
    : OrganizationPage.State :=
  foldl apply_effect st effs.

Section WithEnvironment.
Variable BACKEND_URL : string.
Variable localStorage : gmap string string.
Variable orgId : string.

(** [fetchData]: the three requests go out together; the continuation
    runs once [Promise.all] has settled. *)
Definition fetchData (orgRes membersRes statsRes : Settled) : list Effect :=
  [Request (organizationAPI.getOne BACKEND_URL localStorage orgId);
   Request (organizationAPI.getMembers BACKEND_URL localStorage orgId);
   Request (organizationAPI.getStats BACKEND_URL localStorage orgId)] ++
  match all_fulfilled [orgRes; membersRes; statsRes] with
  | Some [org; mem; sta] => [SetOrganization org; SetMembers mem; SetStats sta]
  | _ => [ToastError (JStr "Failed to load organization data")]
  end ++ [SetLoading false].

Definition handleInvite (form : FormData) (reply : Settled) : list Effect :=
  PreventDefault ::
  Request (organizationAPI.invite BACKEND_URL localStorage orgId
             (JObj {[ "email" := of_nullable (form_get form "email");
                      "role" := of_nullable (form_get form "role") ]})) ::
  match reply with
  | Fulfilled _ =>
      [ToastSuccess "Member invited successfully!";
       SetInviteDialogOpen false;
       FetchData;
       FormReset]
  | Rejected error => [ToastError (detail_or error "Failed to invite member")]
  end.

End WithEnvironment.

Definition calls (effs : list Effect) : list axios.Call :=
  omap (λ e, match e with Request c => Some c | _ => None end) effs.

End OrganizationData.

(* ===================================================================== *)
(** ** pages/TasksPage.js *)
(* ===================================================================== *)

Module TasksPage.
Import Js Handlers.

Inductive Effect :=
  | PreventDefault
  | Confirm (msg : string)                (* window.confirm(msg) *)
  | Request (c : axios.Call)
  | SetTasks (v : JsVal)
  | SetMembers (v : JsVal)
  | SetLoading (b : bool)
  | SetCreateDialogOpen (b : bool)
  | SetEditingTask (v : JsVal)
  | FetchData                             (* fetchData(), not awaited *)
  | FormReset
  | ToastSuccess (msg : string)
  | ToastError (msg : JsVal).

(** The [params] object built at the start of [fetchData]: three
    assignments, each behind its own test of [activeFilter]. *)
Definition fetch_params (activeFilter : string) : gmap string JsVal :=
  let params : gmap string JsVal := ∅ in
  let params :=
    if bool_decide (activeFilter = "my-tasks")
    then <["assigned_to_me" := JBool true]> params else params in
  let params :=
    if bool_decide (activeFilter = "daily")
    then <["is_daily" := JBool true]> params else params in
  let params :=
    if bool_decide (activeFilter ∈ ["pending"; "about_to_do"; "completed"])
    then <["status" := JStr activeFilter]> params else params in
  params.

Section WithEnvironment.
Variable BACKEND_URL : string.
Variable localStorage : gmap string string.
(** [parseInt] on a non-empty string: a number or [NaN]. *)
Variable parseInt : string -> JsVal.
(** Conversion of a value inside a template literal. *)
Variable to_template : JsVal -> string.
(** [useParams().orgId] *)
Variable orgId : string.

Definition fetchData (activeFilter : string) (tasksRes membersRes : Settled) : list Effect :=
  [Request (taskAPI.getAll BACKEND_URL localStorage orgId (JObj (fetch_params activeFilter)));
   Request (organizationAPI.getMembers BACKEND_URL localStorage orgId)] ++
  match all_fulfilled [tasksRes; membersRes] with
  | Some [tasks; members] => [SetTasks tasks; SetMembers members]
  | _ => [ToastError (JStr "Failed to load tasks")]
  end ++ [SetLoading false].

(** The [data] literal of [handleCreateTask] and of [handleUpdateTask]
    (the two are written out identically). *)
Definition task_data (form : FormData) : JsVal :=
  JObj {[ "title" := of_nullable (form_get form "title");
          "description" := of_nullable (form_get form "description");
          "assigned_to" := or_null (form_get form "assigned_to");
          "status" := of_nullable (form_get form "status");
          "duration_minutes" :=
            (if truthy_str (form_get form "duration")
             then parseInt (template (form_get form "duration"))
             else JNull);
          "is_daily" := JBool (bool_decide (form_get form "is_daily" = Some "on"));
          "due_date" := or_null (form_get form "due_date") ]}.

Definition handleCreateTask (form : FormData) (reply : Settled) : list Effect :=
  PreventDefault ::
  Request (taskAPI.create BACKEND_URL localStorage orgId (task_data form)) ::
  match reply with
  | Fulfilled _ =>
      [ToastSuccess "Task created successfully!";
       SetCreateDialogOpen false;
       FetchData;
       FormReset]
  | Rejected error => [ToastError (detail_or error "Failed to create task")]
  end.

(** [editingTask.id] is read inside the [try]: on a [null] task it throws
    before any request is made. *)
Definition handleUpdateTask (editingTask : JsVal) (form : FormData) (reply : Settled)
    : list Effect :=
  PreventDefault ::
  match get_prop editingTask "id" with
  | None => [ToastError (detail_or TypeError "Failed to update task")]
  | Some id =>
      Request (taskAPI.update BACKEND_URL localStorage orgId (to_template id)
                 (task_data form)) ::
      match reply with
      | Fulfilled _ =>
          [ToastSuccess "Task updated successfully!";
           SetEditingTask JNull;
           FetchData]
      | Rejected error => [ToastError (detail_or error "Failed to update task")]
      end
  end.

Definition handleDeleteTask (taskId : JsVal) (confirmed : bool) (reply : Settled)
    : list Effect :=
  Confirm "Are you sure you want to delete this task?" ::
  if negb confirmed then []
  else
    Request (taskAPI.delete BACKEND_URL localStorage orgId (to_template taskId)) ::
    match reply with
    | Fulfilled _ => [ToastSuccess "Task deleted successfully!"; FetchData]
    | Rejected error => [ToastError (detail_or error "Failed to delete task")]
    end.

End WithEnvironment.

Definition calls (effs : list Effect) : list axios.Call :=
  omap (λ e, match e with Request c => Some c | _ => None end) effs.

Definition is_setter (e : Effect) : bool :=
  match e with
  | SetTasks _ | SetMembers _ | SetLoading _ | SetCreateDialogOpen _
  | SetEditingTask _ => true
  | _ => false
  end.

End TasksPage.

(* ===================================================================== *)
(** ** AdminPage.js *)
(* ===================================================================== *)

Module AdminPage.
Import Js Handlers.

(** The names every object literal inherits from [Object.prototype]; the
    value found under each of them is a function or an object. *)
Definition object_prototype_members : list string :=
  ["constructor"; "__defineGetter__"; "__defineSetter__"; "hasOwnProperty";
   "__lookupGetter__"; "__lookupSetter__"; "isPrototypeOf";
   "propertyIsEnumerable"; "toString"; "valueOf"; "__proto__"; "toLocaleString"].

(** The own properties of the [showSecrets] object.  It starts as [{}] and
    is only ever replaced by [toggleSecretVisibility], which stores
    booleans. *)
Abbreviation ShowSecrets := (gmap string bool).

(** Truthiness of [showSecrets[keyName]]: the own property when there is
    one, otherwise what the prototype provides. *)
Definition shown (showSecrets : ShowSecrets) (keyName : string) : bool :=
  match showSecrets !! keyName with
  | Some b => b
  | None => bool_decide (keyName ∈ object_prototype_members)
  end.

(** The updater passed to [setShowSecrets]:
    [prev => ({ ...prev, [keyName]: !prev[keyName] })]. *)
Definition toggleSecretVisibility (keyName : string) (prev : ShowSecrets) : ShowSecrets :=
  <[ keyName := negb (shown prev keyName) ]> prev.

(** One entry of [configs], with [key_name] a string. *)
Record ConfigEntry := {
  key_name : string;
  value : JsVal;
  is_secret : JsVal
}.

(** The text of the description line of a card: the row of twenty bullets
    or the value. *)
Inductive Description :=
  | Bullets
  | Plain (v : JsVal).

Definition description (showSecrets : ShowSecrets) (config : ConfigEntry) : Description :=
  if truthy (is_secret config) && negb (shown showSecrets (key_name config))
  then Bullets
  else Plain (value config).

Record State := {
  configs : JsVal;
  loading : bool;
  createDialogOpen : bool;
  showSecrets : ShowSecrets;
  hasAccess : bool
}.

Definition initial : State :=
  {| configs := JArr []; loading := true; createDialogOpen := false;
     showSecrets := ∅; hasAccess := true |}.

Inductive Effect :=
  | PreventDefault
  | Confirm (msg : string)
  | Request (c : axios.Call)
  | SetConfigs (v : JsVal)
  | SetHasAccess (b : bool)
  | SetLoading (b : bool)
  | SetCreateDialogOpen (b : bool)
  | FetchConfigs                          (* fetchConfigs(), not awaited *)
  | FormReset
  | ToastSuccess (msg : string)
  | ToastError (msg : JsVal).

Definition apply_effect (st : State) (e : Effect) : State :=
  match e with
  | SetConfigs v =>
      {| configs := v; loading := loading st; createDialogOpen := createDialogOpen st;
         showSecrets := showSecrets st; hasAccess := hasAccess st |}
  | SetHasAccess b =>
      {| configs := configs st; loading := loading st;
         createDialogOpen := createDialogOpen st;
         showSecrets := showSecrets st; hasAccess := b |}
  | SetLoading b =>
      {| configs := configs st; loading := b; createDialogOpen := createDialogOpen st;
         showSecrets := showSecrets st; hasAccess := hasAccess st |}
  | SetCreateDialogOpen b =>
      {| configs := configs st; loading := loading st; createDialogOpen := b;
         showSecrets := showSecrets st; hasAccess := hasAccess st |}
  | _ => st
  end.

Definition page_after (st : State) (effs : list Effect) : State :=
  foldl apply_effect st effs.

(** [v === 403] *)
Definition is_forbidden (v : JsVal) : bool :=
  match v with
  | JNum n => (n =? 403)%Z
  | _ => false
  end.

Section WithEnvironment.
Variable BACKEND_URL : string.
Variable localStorage : gmap string string.

Definition fetchConfigs (reply : Settled) : list Effect :=
  Request (adminAPI.getConfig BACKEND_URL localStorage) ::
  match reply with
  | Fulfilled data => [SetConfigs data; SetHasAccess true]
  | Rejected error =>
      if is_forbidden (opt_chain (response error) "status")
      then [SetHasAccess false; ToastError (JStr "You do not have system admin access")]
      else [ToastError (JStr "Failed to load configurations")]
  end ++ [SetLoading false].

Definition handleCreateConfig (form : FormData) (reply : Settled) : list Effect :=
  PreventDefault ::
  Request (adminAPI.updateConfig BACKEND_URL localStorage
             (JObj {[ "key_name" := of_nullable (form_get form "key_name");
                      "value" := of_nullable (form_get form "value");
                      "is_secret" :=
                        JBool (bool_decide (form_get form "is_secret" = Some "on")) ]})) ::
  match reply with
  | Fulfilled _ =>
      [ToastSuccess "Configuration saved successfully!";
       SetCreateDialogOpen false;
       FetchConfigs;
       FormReset]
  | Rejected error => [ToastError (detail_or error "Failed to save configuration")]
  end.

Definition handleDeleteConfig (keyName : string) (confirmed : bool) (reply : Settled)
    : list Effect :=
  Confirm "Are you sure you want to delete this configuration?" ::
  if negb confirmed then []
  else
    Request (adminAPI.deleteConfig BACKEND_URL localStorage keyName) ::
    match reply with
    | Fulfilled _ => [ToastSuccess "Configuration deleted successfully!"; FetchConfigs]
    | Rejected error => [ToastError (detail_or error "Failed to delete configuration")]
    end.

End WithEnvironment.

Definition calls (effs : list Effect) : list axios.Call :=
  omap (λ e, match e with Request c => Some c | _ => None end) effs.

End AdminPage.


(* ===================================================================== *)
(** * Properties *)
(* ===================================================================== *)

(** ** Authorization header of the payment requests *)

Section AuthHeaders.
Import Js api.
Variable BACKEND_URL : string.
Variable localStorage : gmap string string.

Lemma getAuthHeaders_token (t : string) :
  localStorage !! "token" = Some t -> t ≠ "" ->
  getAuthHeaders localStorage = {[ "Authorization" := "Bearer " +:+ t ]}.
Proof.
  intros Ht Hne. unfold getAuthHeaders. rewrite Ht. simpl.
  rewrite bool_decide_eq_false_2 by done. done.
Qed.

Lemma getAuthHeaders_none :
  localStorage !! "token" = None ∨ localStorage !! "token" = Some "" ->
  getAuthHeaders localStorage = ∅.
Proof. intros [H | H]; unfold getAuthHeaders; rewrite H; done. Qed.

(** C10, amended.  Both payment requests carry
    [Authorization: Bearer <token>] when a non-empty string is stored under
    the key [token], and no [Authorization] header when nothing is stored
    under that key or when the stored string is empty. *)
Theorem payment_requests_authorization (body : JsVal) (sessionId : option string) (req : Request) :
  req ∈ payment_requests BACKEND_URL localStorage body sessionId ->
  (∀ t, localStorage !! "token" = Some t -> t ≠ "" ->
        headers req = {[ "Authorization" := "Bearer " +:+ t ]}) ∧
  (localStorage !! "token" = None ∨ localStorage !! "token" = Some "" ->
        headers req !! "Authorization" = None).
Proof.
  intros Hin.
  assert (headers req = getAuthHeaders localStorage) as ->.
  { unfold payment_requests in Hin.
    apply elem_of_cons in Hin as [-> | Hin]; [done |].
    apply elem_of_cons in Hin as [-> | Hin]; [done |].
    by apply elem_of_nil in Hin. }
  split.
  - apply getAuthHeaders_token.
  - intros H. by rewrite getAuthHeaders_none.
Qed.

End AuthHeaders.

Lemma payment_requests_authorization_witness :
  api.headers (api.getStatus "https://backend.example" {[ "token" := "abc" ]} (Some "cs_1"))
  = {[ "Authorization" := "Bearer abc" ]}.
Proof.
  refine (proj1 (payment_requests_authorization
                   "https://backend.example" {[ "token" := "abc" ]}
                   Js.JNull (Some "cs_1") _ _) "abc" _ _).
  - unfold api.payment_requests. apply elem_of_cons. right. apply elem_of_cons. by left.
  - reflexivity.
  - discriminate.
Defined.

(** C10, as stated, fails when the stored token is the empty string: the
    key [token] holds a value, yet neither request has the header. *)
Lemma authorization_empty_token_cex :
  let storage : gmap string string := {[ "token" := "" ]} in
  storage !! "token" = Some "" ∧
  api.headers (api.createCheckout "https://backend.example" storage Js.JNull)
    !! "Authorization" = None ∧
  api.headers (api.getStatus "https://backend.example" storage (Some "cs_1"))
    !! "Authorization" = None.
Proof. repeat split. Qed.


(** ** Checkout initiation *)

Section Checkout.
Import Js OrganizationPage.
Variable BACKEND_URL : string.
Variable localStorage : gmap string string.
Variable orgId : string.
Variable href_accepts : JsVal -> bool.

Abbreviation handleUpgrade :=
  (handleUpgrade BACKEND_URL localStorage orgId href_accepts).
Abbreviation createCheckout := (api.createCheckout BACKEND_URL localStorage).




(** C6.  When the checkout request succeeds and the response carries the
    URL string [u], a string the browser accepts as a URL, the one
    navigation performed is the assignment of [u] itself to
    [window.location.href]; nothing else happens after the request. *)
Theorem checkout_success_navigates (st : State) (data : JsVal) (u : string) :
  get_prop data "url" = Some (JStr u) ->
  href_accepts (JStr u) = true ->
  handleUpgrade st (Fulfilled data)
    = [AxiosRequest (createCheckout (checkout_body orgId st));
       LocationAssign (JStr u)].
Proof.
  intros Hu Ha. unfold OrganizationPage.handleUpgrade. by rewrite Hu, Ha.
Qed.

Lemma get_prop_None (v : JsVal) (k : string) :
  get_prop v k = None ↔ nullish v = true.
Proof. by destruct v. Qed.

(** The three ways a fulfilled request can end. *)
Lemma checkout_success_cases (st : State) (data : JsVal) :
  (nullish data = true ∧
   handleUpgrade st (Fulfilled data)
     = [AxiosRequest (createCheckout (checkout_body orgId st));
        ToastError (JStr "Failed to create checkout session")]) ∨
  (∃ u, nullish data = false ∧ get_prop data "url" = Some u ∧ href_accepts u = false ∧
   handleUpgrade st (Fulfilled data)
     = [AxiosRequest (createCheckout (checkout_body orgId st));
        ToastError (JStr "Failed to create checkout session")]) ∨
  (∃ u, nullish data = false ∧ get_prop data "url" = Some u ∧ href_accepts u = true ∧
   handleUpgrade st (Fulfilled data)
     = [AxiosRequest (createCheckout (checkout_body orgId st));
        LocationAssign u]).
Proof.
  unfold OrganizationPage.handleUpgrade.
  destruct (get_prop data "url") as [u |] eqn:Hu.
  - assert (nullish data = false) as Hn by (by destruct data).
    destruct (href_accepts u) eqn:Ha.
    + right; right. by exists u.
    + right; left. by exists u.
  - left. split; [by apply get_prop_None in Hu | done].
Qed.

(** C4, amended.  After a fulfilled request the error toast is shown, and
    nothing is assigned to [window.location.href], exactly when the
    response body is [null] or [undefined] (reading [url] throws) or the
    browser refuses the value of [url] (the setter throws).  In every
    other case no error is shown and that value is assigned; a body with
    no [url] member is such a case when the browser takes [undefined],
    which is then the value assigned. *)
Theorem checkout_success_outcomes (st : State) (data : JsVal) :
  let effs := handleUpgrade st (Fulfilled data) in
  let request := AxiosRequest (createCheckout (checkout_body orgId st)) in
  let refused :=
    nullish data = true ∨ ∃ u, get_prop data "url" = Some u ∧ href_accepts u = false in
  (refused -> effs = [request; ToastError (JStr "Failed to create checkout session")]) ∧
  (∀ u, get_prop data "url" = Some u -> href_accepts u = true ->
        effs = [request; LocationAssign u]) ∧
  (get_prop data "url" = Some JUndefined -> href_accepts JUndefined = true ->
        effs = [request; LocationAssign JUndefined] ∧
        filter (λ e, is_error_toast e = true) effs = []) ∧
  ((∃ msg, ToastError msg ∈ effs) ↔ refused) ∧
  ((∃ v, LocationAssign v ∈ effs) ↔ ¬ refused).
Proof.
  intros effs request refused. unfold effs, request, refused. clear effs request refused.
  destruct (checkout_success_cases st data)
    as [[Hn ->] | [(u & Hn & Hu & Ha & ->) | (u & Hn & Hu & Ha & ->)]].
  - pose proof (proj2 (get_prop_None data "url") Hn) as Hnone.
    split; [done |]. split.
    { intros u Hu. congruence. }
    split.
    { intros Hu. congruence. }
    split; split.
    + intros _. by left.
    + intros _. eexists. apply list_elem_of_further, list_elem_of_here.
    + intros [v Hv]. exfalso.
      repeat (apply elem_of_cons in Hv as [Hv | Hv]; [discriminate Hv |]).
      by apply elem_of_nil in Hv.
    + intros Hnot. destruct Hnot. by left.
  - split; [done |]. split.
    { intros u' Hu' Ha'. congruence. }
    split.
    { intros Hu' Ha'. congruence. }
    split; split.
    + intros _. right. by exists u.
    + intros _. eexists. apply list_elem_of_further, list_elem_of_here.
    + intros [v Hv]. exfalso.
      repeat (apply elem_of_cons in Hv as [Hv | Hv]; [discriminate Hv |]).
      by apply elem_of_nil in Hv.
    + intros Hnot. destruct Hnot. right. by exists u.
  - assert (¬ (nullish data = true ∨
               ∃ u0, get_prop data "url" = Some u0 ∧ href_accepts u0 = false)) as Hnot.
    { intros [H | (u' & Hu' & Ha')]; congruence. }
    split; [by intros H; destruct (Hnot H) |]. split.
    { intros u' Hu' _. congruence. }
    split.
    { intros Hu' _. assert (u = JUndefined) as -> by congruence. done. }
    split; split.
    + intros [msg Hm]. exfalso.
      repeat (apply elem_of_cons in Hm as [Hm | Hm]; [discriminate Hm |]).
      by apply elem_of_nil in Hm.
    + intros H. destruct (Hnot H).
    + intros _. done.
    + intros _. eexists. apply list_elem_of_further, list_elem_of_here.
Qed.

(** The only success response that ends in the [catch] block before the
    assignment is one whose body is [null] or [undefined]: reading [url]
    from it throws. *)
Lemma checkout_success_nullish_body (st : State) (data : JsVal) :
  nullish data = true ->
  handleUpgrade st (Fulfilled data)
    = [AxiosRequest (createCheckout (checkout_body orgId st));
       ToastError (JStr "Failed to create checkout session")].
Proof. intros Hn. by destruct data. Qed.

(** C7.  When the checkout request is rejected, [handleUpgrade] shows one
    error toast (the backend's [detail] when there is a truthy one, a fixed
    message otherwise), assigns nothing to [window.location.href], calls
    no state setter, so that the page state is what it was, and has sent
    the request once only. *)
Theorem checkout_failure (st : State) (err : Thrown) :
  let effs := handleUpgrade st (Rejected err) in
  let detail := opt_chain (opt_chain (response err) "data") "detail" in
  effs = [AxiosRequest (createCheckout (checkout_body orgId st));
          ToastError (if truthy detail then detail
                      else JStr "Failed to create checkout session")] ∧
  filter (λ e, is_navigation e = true) effs = [] ∧
  length (filter (λ e, is_error_toast e = true) effs) = 1 ∧
  length (requests effs) = 1 ∧
  page_after st effs = st.
Proof. done. Qed.

End Checkout.

Lemma checkout_success_navigates_witness :
  OrganizationPage.handleUpgrade "https://backend.example" ∅ "org-42"
    OrganizationPage.sample_href_accepts
    (OrganizationPage.page_after OrganizationPage.initial
       [OrganizationPage.SetSelectedPackage "professional"])
    (Js.Fulfilled (Js.JObj {[ "url" := Js.JStr "https://pay.example/c/cs_1" ]}))
  = [OrganizationPage.AxiosRequest
       (api.createCheckout "https://backend.example" ∅
          (Js.JObj {[ "package_id" := Js.JStr "professional";
                      "org_id" := Js.JStr "org-42" ]}));
     OrganizationPage.LocationAssign (Js.JStr "https://pay.example/c/cs_1")].
Proof.
  apply (checkout_success_navigates "https://backend.example" ∅ "org-42"
           OrganizationPage.sample_href_accepts).
  - reflexivity.
  - vm_compute; reflexivity.
Defined.

Lemma checkout_success_outcomes_witness :
  filter (λ e, OrganizationPage.is_navigation e = true)
    (OrganizationPage.handleUpgrade "https://backend.example" ∅ "org-42"
       OrganizationPage.sample_href_accepts
       OrganizationPage.initial (Js.Fulfilled (Js.JObj ∅)))
  = [OrganizationPage.LocationAssign Js.JUndefined] ∧
  OrganizationPage.handleUpgrade "https://backend.example" ∅ "org-42"
    OrganizationPage.sample_href_accepts
    OrganizationPage.initial (Js.Fulfilled (Js.JObj {[ "url" := Js.JStr "http://" ]}))
  = [OrganizationPage.AxiosRequest
       (api.createCheckout "https://backend.example" ∅
          (OrganizationPage.checkout_body "org-42" OrganizationPage.initial));
     OrganizationPage.ToastError (Js.JStr "Failed to create checkout session")].
Proof.
  split.
  - assert (Js.get_prop (Js.JObj ∅) "url" = Some Js.JUndefined) as Hu
      by (vm_compute; reflexivity).
    destruct (checkout_success_outcomes "https://backend.example" ∅ "org-42"
                OrganizationPage.sample_href_accepts
                OrganizationPage.initial (Js.JObj ∅)) as (_ & _ & Hmissing & _).
    destruct (Hmissing Hu eq_refl) as [-> _]. reflexivity.
  - destruct (checkout_success_outcomes "https://backend.example" ∅ "org-42"
                OrganizationPage.sample_href_accepts
                OrganizationPage.initial
                (Js.JObj {[ "url" := Js.JStr "http://" ]})) as (Hrefused & _).
    apply Hrefused. right. exists (Js.JStr "http://").
    split; vm_compute; reflexivity.
Defined.


(** C4, as stated, fails on a success response with an empty body object:
    no error is shown and the location is assigned. *)
Lemma checkout_missing_url_cex :
  let effs := OrganizationPage.handleUpgrade "https://backend.example" ∅ "org-42"
                OrganizationPage.sample_href_accepts
                OrganizationPage.initial (Js.Fulfilled (Js.JObj ∅)) in
  Js.get_prop (Js.JObj ∅) "url" = Some Js.JUndefined ∧
  filter (λ e, OrganizationPage.is_error_toast e = true) effs = [] ∧
  filter (λ e, OrganizationPage.is_navigation e = true) effs
    = [OrganizationPage.LocationAssign Js.JUndefined].
Proof. repeat split. Qed.


(** ** Payment-status polling *)

Section Poller.
Import Js PaymentSuccess.
Variable BACKEND_URL : string.
Variable localStorage : gmap string string.

Abbreviation pollPaymentStatus := (pollPaymentStatus BACKEND_URL localStorage).
Abbreviation call := (call BACKEND_URL localStorage).
Abbreviation mount := (mount BACKEND_URL localStorage).
Abbreviation step := (step BACKEND_URL localStorage).
Abbreviation run := (run BACKEND_URL localStorage).

(** *** Frame lemmas: what one effect, and a list of effects, changes *)

Lemma perform_trace (w : World) (e : Effect) : trace (perform w e) = trace w ++ [e].
Proof. destruct e; unfold perform, set_hooks; simpl; destruct (mounted w); reflexivity. Qed.

Lemma perform_inflight (w : World) (e : Effect) : inflight (perform w e) = inflight w.
Proof. destruct e; unfold perform, set_hooks; simpl; destruct (mounted w); reflexivity. Qed.

Lemma perform_mounted (w : World) (e : Effect) : mounted (perform w e) = mounted w.
Proof.
  destruct e; unfold perform, set_hooks; simpl;
    destruct (mounted w) eqn:E; simpl; congruence.
Qed.

Lemma perform_timers (w : World) (e : Effect) :
  timers (perform w e) = timers w ++ scheduled [e].
Proof.
  destruct e; unfold perform, set_hooks; simpl;
    destruct (mounted w); simpl; rewrite ?app_nil_r; reflexivity.
Qed.

Lemma perform_unmounted (w : World) (e : Effect) :
  mounted w = false -> hooks (perform w e) = hooks w.
Proof. intros Hm. destruct e; unfold perform, set_hooks; simpl; rewrite ?Hm; reflexivity. Qed.

Lemma performs_trace (effs : list Effect) (w : World) :
  trace (foldl perform w effs) = trace w ++ effs.
Proof.
  revert w. induction effs as [| e effs IH]; intros w; simpl.
  - by rewrite app_nil_r.
  - rewrite IH, perform_trace, <- app_assoc. reflexivity.
Qed.

Lemma performs_inflight (effs : list Effect) (w : World) :
  inflight (foldl perform w effs) = inflight w.
Proof.
  revert w. induction effs as [| e effs IH]; intros w; simpl; [done |].
  by rewrite IH, perform_inflight.
Qed.

Lemma performs_mounted (effs : list Effect) (w : World) :
  mounted (foldl perform w effs) = mounted w.
Proof.
  revert w. induction effs as [| e effs IH]; intros w; simpl; [done |].
  by rewrite IH, perform_mounted.
Qed.

Lemma performs_timers (effs : list Effect) (w : World) :
  timers (foldl perform w effs) = timers w ++ scheduled effs.
Proof.
  revert w. induction effs as [| e effs IH]; intros w; simpl.
  - by rewrite app_nil_r.
  - rewrite IH, perform_timers, <- app_assoc. f_equal.
    destruct e; reflexivity.
Qed.

Lemma performs_unmounted (effs : list Effect) (w : World) :
  mounted w = false -> hooks (foldl perform w effs) = hooks w.
Proof.
  revert w. induction effs as [| e effs IH]; intros w Hm; simpl; [done |].
  rewrite IH by (by rewrite perform_mounted). by apply perform_unmounted.
Qed.

(** The continuation of [pollPaymentStatus] is one of four effect lists,
    and the retry is the only one that schedules anything. *)
Lemma resume_cases (c : Closure) (reply : Settled) :
  let effs := resume (pollPaymentStatus c) reply in
  effs = on_catch ∨
  effs = [SetStatus success; ToastSuccess "Payment successful!"] ∨
  effs = [SetAttemptsSucc; SetTimeout c 2000] ∨
  effs = [SetStatus timeout;
          ToastError "Payment verification timed out. Please contact support."].
Proof.
  simpl. destruct reply as [data | err]; [| by left].
  destruct (get_prop data "payment_status") as [v |]; [| by left].
  destruct (strict_eq_str v "paid"); [by right; left |].
  destruct (cl_attempts c <? maxAttempts); [by right; right; left |].
  by right; right; right.
Qed.

Lemma resume_no_query (c : Closure) (reply : Settled) :
  filter (λ e, is_query e = true) (resume (pollPaymentStatus c) reply) = [].
Proof.
  destruct (resume_cases c reply) as [H | [H | [H | H]]]; rewrite H; reflexivity.
Qed.

Lemma resume_scheduled (c : Closure) (reply : Settled) :
  length (scheduled (resume (pollPaymentStatus c) reply)) ≤ 1.
Proof.
  destruct (resume_cases c reply) as [H | [H | [H | H]]]; rewrite H; simpl; lia.
Qed.

(** *** What one event changes *)

Lemma step_settle (w w' : World) (i : nat) (reply : Settled) :
  step w (Settle i reply) = Some w' ->
  ∃ c, inflight w !! i = Some c ∧
       inflight w' = delete i (inflight w) ∧
       timers w' = timers w ++ scheduled (resume (pollPaymentStatus c) reply) ∧
       trace w' = trace w ++ resume (pollPaymentStatus c) reply ∧
       mounted w' = mounted w.
Proof.
  unfold PaymentSuccess.step. destruct (inflight w !! i) as [c |] eqn:Hc; [| done].
  simpl. intros [= <-]. exists c.
  rewrite performs_inflight, performs_timers, performs_trace, performs_mounted.
  done.
Qed.

Lemma step_fire (w w' : World) (i : nat) :
  step w (Fire i) = Some w' ->
  ∃ c, timers w !! i = Some c ∧
       inflight w' = inflight w ++ [c] ∧
       timers w' = delete i (timers w) ∧
       trace w' = trace w ++ [GetStatus (request (pollPaymentStatus c))] ∧
       mounted w' = mounted w ∧
       hooks w' = hooks w.
Proof.
  unfold PaymentSuccess.step. destruct (timers w !! i) as [c |] eqn:Hc; [| done].
  simpl. intros [= <-]. by exists c.
Qed.

Lemma step_unmount (w w' : World) :
  step w Unmount = Some w' ->
  mounted w = true ∧ mounted w' = false ∧
  inflight w' = inflight w ∧ timers w' = timers w ∧
  trace w' = trace w ∧ hooks w' = hooks w.
Proof.
  unfold PaymentSuccess.step. destruct (mounted w); [| done]. by intros [= <-].
Qed.

Lemma length_delete_Some {A} (l : list A) (i : nat) (x : A) :
  l !! i = Some x -> length l = S (length (delete i l)).
Proof.
  intros H. rewrite length_delete by eauto.
  apply lookup_lt_Some in H. lia.
Qed.

Lemma queries_app (w w' : World) (effs : list Effect) :
  trace w' = trace w ++ effs ->
  queries w' = queries w + length (filter (λ e, is_query e = true) effs).
Proof. intros H. unfold queries. by rewrite H, filter_app, length_app. Qed.

(** No event increases the number of pending calls. *)
Lemma step_pending (w w' : World) (ev : Event) :
  step w ev = Some w' -> pending w' ≤ pending w.
Proof.
  unfold pending. destruct ev as [i reply | i |]; intros H.
  - apply step_settle in H as (c & Hc & -> & -> & _ & _).
    rewrite length_app, (length_delete_Some _ _ _ Hc).
    pose proof (resume_scheduled c reply). lia.
  - apply step_fire in H as (c & Hc & -> & -> & _ & _ & _).
    rewrite length_app, (length_delete_Some (timers w) _ _ Hc). simpl. lia.
  - apply step_unmount in H as (_ & _ & -> & -> & _ & _). lia.
Qed.

(** Queries are issued by timers only, one per timer, and every outcome
    delivered takes one call out of flight. *)
Lemma step_queries (w w' : World) (ev : Event) :
  step w ev = Some w' ->
  queries w' = queries w + (if ev is Fire _ then 1 else 0) ∧
  queries w' + length (inflight w)
    = queries w + length (inflight w') + (if is_settle ev then 1 else 0).
Proof.
  destruct ev as [i reply | i |]; intros H.
  - apply step_settle in H as (c & Hc & Hi & _ & Ht & _).
    rewrite (queries_app _ _ _ Ht), resume_no_query, Hi,
      (length_delete_Some _ _ _ Hc). simpl. lia.
  - apply step_fire in H as (c & Hc & Hi & _ & Ht & _ & _).
    rewrite (queries_app _ _ _ Ht), Hi, length_app. simpl. lia.
  - apply step_unmount in H as (_ & _ & Hi & _ & Ht & _).
    unfold queries. rewrite Ht, Hi. simpl. lia.
Qed.

Lemma mount_pending (sid : option string) :
  pending (mount sid) ≤ 1 ∧ queries (mount sid) = length (inflight (mount sid)).
Proof.
  unfold PaymentSuccess.mount, pending, queries.
  destruct (truthy_str sid); simpl; split; lia.
Qed.

Lemma run_app (w w' : World) (evs evs' : list Event) :
  run w evs = Some w' -> run w (evs ++ evs') = run w' evs'.
Proof.
  revert w. induction evs as [| e evs IH]; intros w; simpl.
  - by intros [= ->].
  - destruct (step w e) as [w1 |]; simpl; [| done]. apply IH.
Qed.

Lemma run_pending (evs : list Event) (w w' : World) :
  run w evs = Some w' -> pending w' ≤ pending w.
Proof.
  revert w. induction evs as [| ev evs IH]; intros w; simpl.
  - by intros [= ->].
  - destruct (step w ev) as [w1 |] eqn:Hs; simpl; [| done].
    intros H. apply IH in H. apply step_pending in Hs. lia.
Qed.

Lemma run_queries (evs : list Event) (w w' : World) :
  run w evs = Some w' ->
  queries w' + length (inflight w) = queries w + length (inflight w') + settled evs.
Proof.
  revert w. induction evs as [| ev evs IH]; intros w; simpl.
  - intros [= ->]. unfold settled. simpl. lia.
  - destruct (step w ev) as [w1 |] eqn:Hs; simpl; [| done].
    intros H. apply IH in H. apply step_queries in Hs as [_ Hs].
    unfold settled in *. rewrite filter_cons.
    destruct ev; simpl in *; lia.
Qed.

(** *** Quiescent and unmounted worlds *)

(** With nothing in flight and no timer set, only [Unmount] can happen,
    and it neither issues a query nor touches the hook state. *)
Lemma quiescent_run (evs : list Event) (w w' : World) :
  pending w = 0 -> run w evs = Some w' ->
  queries w' = queries w ∧ hooks w' = hooks w ∧ trace w' = trace w.
Proof.
  revert w. induction evs as [| ev evs IH]; intros w Hp; simpl.
  - by intros [= ->].
  - destruct (step w ev) as [w1 |] eqn:Hs; simpl; [| done]. intros Hr.
    assert (pending w1 = 0) as Hp1 by (apply step_pending in Hs; lia).
    destruct (IH w1 Hp1 Hr) as (-> & -> & ->).
    unfold pending in Hp. destruct ev as [i reply | i |].
    + apply step_settle in Hs as (c & Hc & _).
      apply lookup_lt_Some in Hc. lia.
    + apply step_fire in Hs as (c & Hc & _).
      apply lookup_lt_Some in Hc. lia.
    + apply step_unmount in Hs as (_ & _ & _ & _ & Ht & Hh).
      unfold queries. by rewrite Ht, Hh.
Qed.

(** Once the component is unmounted its hook state stays as it is. *)
Lemma unmounted_run (evs : list Event) (w w' : World) :
  mounted w = false -> run w evs = Some w' ->
  mounted w' = false ∧ hooks w' = hooks w.
Proof.
  revert w. induction evs as [| ev evs IH]; intros w Hm; simpl.
  - by intros [= ->].
  - destruct (step w ev) as [w1 |] eqn:Hs; simpl; [| done]. intros Hr.
    assert (mounted w1 = false ∧ hooks w1 = hooks w) as [Hm1 Hh1].
    { destruct ev as [i reply | i |].
      - unfold PaymentSuccess.step in Hs.
        destruct (inflight w !! i) as [c |]; [| done].
        simpl in Hs. injection Hs as <-.
        rewrite performs_mounted, performs_unmounted; done.
      - apply step_fire in Hs as (c & _ & _ & _ & _ & Hm' & Hh'). split; congruence.
      - apply step_unmount in Hs as (Hm' & _). congruence. }
    destruct (IH w1 Hm1 Hr) as [? ->]. done.
Qed.

Lemma settle_rejected (w w' : World) (i : nat) (err : Thrown) :
  mounted w = true ->
  step w (Settle i (Rejected err)) = Some w' ->
  status (hooks w') = error.
Proof.
  intros Hm. unfold PaymentSuccess.step.
  destruct (inflight w !! i) as [c |]; [| done].
  simpl. intros [= <-]. unfold set_hooks. simpl. by rewrite Hm.
Qed.

(** *** Claims about the poller *)

(** C5.  In every world reachable from the mount, at most one status query
    is in flight; every query issued so far, except the one in flight if
    any, has had its outcome delivered; and an event issues a new query
    only from a world where none is in flight, that is, after the outcomes
    of all earlier queries have been handled. *)
Theorem one_query_in_flight (sid : option string) (evs : list Event) (w : World) :
  run (mount sid) evs = Some w ->
  length (inflight w) ≤ 1 ∧
  queries w = settled evs + length (inflight w) ∧
  (∀ ev w', step w ev = Some w' -> queries w < queries w' ->
     inflight w = [] ∧ queries w = settled evs ∧ queries w' = S (queries w)).
Proof.
  intros Hr.
  pose proof (run_pending _ _ _ Hr) as Hp.
  pose proof (run_queries _ _ _ Hr) as Hq.
  destruct (mount_pending sid) as [Hp0 Hq0].
  unfold pending in Hp, Hp0. split; [lia |]. split; [lia |].
  intros ev w' Hs Hlt.
  pose proof (step_queries _ _ _ Hs) as [Hq1 _].
  destruct ev as [i reply | i |]; simpl in Hq1; [lia | | lia].
  apply step_fire in Hs as (c & Hc & _). apply lookup_lt_Some in Hc.
  assert (length (inflight w) = 0) as Hi by lia.
  split; [by apply nil_length_inv | lia].
Qed.

(** C8.  When the first query answers [paid], the poller moves to
    [success] with that single query, tells the user so, and no later
    event issues another query or leaves [success]. *)
Theorem paid_on_first_query (sid : option string) (data : JsVal) :
  truthy_str sid = true ->
  get_prop data "payment_status" = Some (JStr "paid") ->
  ∃ w, step (mount sid) (Settle 0 (Fulfilled data)) = Some w ∧
       status (hooks w) = success ∧
       trace w = [GetStatus (api.getStatus BACKEND_URL localStorage sid);
                  SetStatus success; ToastSuccess "Payment successful!"] ∧
       queries w = 1 ∧
       (∀ evs w', run w evs = Some w' ->
          queries w' = 1 ∧ status (hooks w') = success).
Proof.
  intros Hsid Hpaid. unfold PaymentSuccess.mount. rewrite Hsid.
  unfold PaymentSuccess.step. simpl. rewrite Hpaid. simpl.
  eexists. split; [reflexivity |]. repeat split.
  - eapply quiescent_run in H; [| reflexivity]. by destruct H as [-> _].
  - eapply quiescent_run in H; [| reflexivity]. by destruct H as (_ & -> & _).
Qed.

(** C9.  When a status query is rejected while the page is mounted, its
    continuation sets the state to [error] and shows the failure toast;
    it schedules nothing, nothing else is pending, and no later event
    issues another query or leaves [error]. *)
Theorem query_error_is_terminal (sid : option string) (evs : list Event)
    (w w' : World) (i : nat) (err : Thrown) :
  run (mount sid) evs = Some w ->
  mounted w = true ->
  step w (Settle i (Rejected err)) = Some w' ->
  status (hooks w') = error ∧
  trace w' = trace w ++ [SetStatus error; ToastError "Failed to verify payment status"] ∧
  pending w' = 0 ∧
  (∀ evs' w'', run w' evs' = Some w'' ->
     queries w'' = queries w ∧ status (hooks w'') = error).
Proof.
  intros Hr Hm Hs.
  pose proof (run_pending _ _ _ Hr) as Hp.
  destruct (mount_pending sid) as [Hp0 _].
  pose proof (step_queries _ _ _ Hs) as [Hq _]. simpl in Hq.
  pose proof Hs as Hs'.
  apply step_settle in Hs' as (c & Hc & Hi & Ht & Htr & _).
  assert (pending w' = 0) as Hp'.
  { unfold pending in *. rewrite Hi, Ht. simpl. rewrite app_nil_r.
    pose proof (length_delete_Some _ _ _ Hc). lia. }
  assert (status (hooks w') = error) as Hst
    by (eapply settle_rejected; eauto).
  repeat split; try done.
  - eapply quiescent_run in H; [| done]. destruct H as [-> _]. lia.
  - eapply quiescent_run in H; [| done]. destruct H as (_ & -> & _). done.
Qed.

(** *** The retry bound *)

Lemma resume_retry (c : Closure) (data : JsVal) :
  not_paid data = true -> cl_attempts c < maxAttempts ->
  resume (pollPaymentStatus c) (Fulfilled data) = [SetAttemptsSucc; SetTimeout c 2000].
Proof.
  unfold not_paid. simpl. intros Hd Hc.
  destruct (get_prop data "payment_status") as [v |]; [| done].
  apply negb_true_iff in Hd. rewrite Hd.
  apply Nat.ltb_lt in Hc. by rewrite Hc.
Qed.

(** The closure built by the first render sees [attempts] as 0. *)
Lemma first_render_attempts (sid : option string) :
  cl_attempts (render sid initial) = 0.
Proof. reflexivity. Qed.

(** One not-paid answer followed by the expiry of the timer it sets, for a
    call whose closure is below the bound: the hook counter goes up by
    one, the closure that is called again is the same one. *)
Lemma not_paid_round (w : World) (c : Closure) (data : JsVal) :
  mounted w = true -> inflight w = [c] -> timers w = [] ->
  not_paid data = true -> cl_attempts c < maxAttempts ->
  ∃ w', run w [Settle 0 (Fulfilled data); Fire 0] = Some w' ∧
        mounted w' = true ∧ inflight w' = [c] ∧ timers w' = [] ∧
        status (hooks w') = status (hooks w) ∧
        attempts (hooks w') = S (attempts (hooks w)) ∧
        rendered w' = render (sessionId w) (hooks w') ∧
        sessionId w' = sessionId w ∧
        trace w' = trace w ++ [SetAttemptsSucc; SetTimeout c 2000;
                               GetStatus (request (pollPaymentStatus c))].
Proof.
  intros Hm Hi Ht Hd Hc.
  unfold PaymentSuccess.run, PaymentSuccess.step. rewrite Hi. simpl lookup.
  cbn [mbind option_bind]. rewrite (resume_retry c data Hd Hc).
  cbn [foldl]. unfold perform, set_hooks, log. cbn -[pollPaymentStatus].
  rewrite Hm, Ht. cbn -[pollPaymentStatus].
  eexists. split; [reflexivity |]. cbn -[pollPaymentStatus].
  repeat split. by rewrite <- !app_assoc.
Qed.

Lemma not_paid_rounds (replies : list JsVal) (w : World) (c : Closure) :
  mounted w = true -> inflight w = [c] -> timers w = [] ->
  Forall (λ data, not_paid data = true) replies -> cl_attempts c < maxAttempts ->
  ∃ w', run w (never_paid replies) = Some w' ∧
        mounted w' = true ∧ inflight w' = [c] ∧ timers w' = [] ∧
        status (hooks w') = status (hooks w) ∧
        attempts (hooks w') = attempts (hooks w) + length replies ∧
        queries w' = queries w + length replies ∧
        filter (λ e, is_timeout e = true) (trace w')
          = filter (λ e, is_timeout e = true) (trace w).
Proof.
  intros Hm Hi Ht Hall Hc. revert w Hm Hi Ht.
  induction Hall as [| data replies Hd Hall IH]; intros w Hm Hi Ht.
  - exists w. simpl. repeat split; try done; lia.
  - destruct (not_paid_round w c data Hm Hi Ht Hd Hc)
      as (w1 & Hr1 & Hm1 & Hi1 & Ht1 & Hs1 & Ha1 & _ & _ & Htr1).
    destruct (IH w1 Hm1 Hi1 Ht1) as (w2 & Hr2 & Hm2 & Hi2 & Ht2 & Hs2 & Ha2 & Hq2 & Hto2).
    exists w2. split.
    { change (never_paid (data :: replies))
        with ([Settle 0 (Fulfilled data); Fire 0] ++ never_paid replies).
      by rewrite (run_app _ _ _ _ Hr1). }
    repeat split; try done; try congruence.
    + rewrite Ha2, Ha1. simpl. lia.
    + rewrite Hq2, (queries_app _ _ _ Htr1). simpl. lia.
    + rewrite Hto2, Htr1, filter_app. simpl. by rewrite app_nil_r.
Qed.

(** C1, what the code does.  [pollPaymentStatus] compares the [attempts]
    captured by its own closure, and the closure that [setTimeout] calls
    again is the one of the first render, where [attempts] is 0.  So a
    session that never reports [paid] is polled again after every answer:
    after [n] not-paid answers, [n + 1] queries have been issued, the
    state is still [checking] with a query in flight, the displayed
    counter is [n], and [timeout] has never been set. *)
Theorem never_paid_keeps_polling (sid : option string) (replies : list JsVal) :
  truthy_str sid = true ->
  Forall (λ data, not_paid data = true) replies ->
  ∃ w, run (mount sid) (never_paid replies) = Some w ∧
       queries w = S (length replies) ∧
       status (hooks w) = checking ∧
       attempts (hooks w) = length replies ∧
       inflight w = [render sid initial] ∧
       filter (λ e, is_timeout e = true) (trace w) = [].
Proof.
  intros Hsid Hall.
  destruct (not_paid_rounds replies (mount sid) (render sid initial))
    as (w & Hr & _ & Hi & _ & Hs & Ha & Hq & Hto); try done.
  - unfold PaymentSuccess.mount. by rewrite Hsid.
  - unfold PaymentSuccess.mount. by rewrite Hsid.
  - unfold PaymentSuccess.mount. by rewrite Hsid.
  - unfold maxAttempts. simpl. lia.
  - exists w. repeat split; try done.
    + rewrite Hq. unfold PaymentSuccess.mount. rewrite Hsid. reflexivity.
    + rewrite Hs. unfold PaymentSuccess.mount. by rewrite Hsid.
    + rewrite Ha. unfold PaymentSuccess.mount. by rewrite Hsid.
    + rewrite Hto. unfold PaymentSuccess.mount. by rewrite Hsid.
Qed.

(** *** [timeout] cannot be reached *)

Lemma resume_below_bound (c : Closure) (reply : Settled) :
  cl_attempts c < maxAttempts ->
  let effs := resume (pollPaymentStatus c) reply in
  effs = on_catch ∨
  effs = [SetStatus success; ToastSuccess "Payment successful!"] ∨
  effs = [SetAttemptsSucc; SetTimeout c 2000].
Proof.
  intros Hc. apply Nat.ltb_lt in Hc. simpl.
  destruct reply as [data | err]; [| by left].
  destruct (get_prop data "payment_status") as [v |]; [| by left].
  destruct (strict_eq_str v "paid"); [by right; left |].
  rewrite Hc. by right; right.
Qed.

Lemma perform_status (w : World) (e : Effect) :
  status (hooks (perform w e)) = status (hooks w) ∨
  e = SetStatus (status (hooks (perform w e))).
Proof.
  destruct e; unfold perform, set_hooks; simpl; destruct (mounted w); simpl; auto.
Qed.

Lemma performs_status (effs : list Effect) (w : World) :
  status (hooks (foldl perform w effs)) = status (hooks w) ∨
  SetStatus (status (hooks (foldl perform w effs))) ∈ effs.
Proof.
  revert w. induction effs as [| e effs IH]; intros w; simpl; [by left |].
  destruct (IH (perform w e)) as [H | H].
  - rewrite H. destruct (perform_status w e) as [H' | H']; [by left |].
    right. rewrite <- H'. apply elem_of_cons. by left.
  - right. apply elem_of_cons. by right.
Qed.

Lemma first_render_only_mount (sid : option string) : first_render_only (mount sid).
Proof.
  unfold first_render_only, PaymentSuccess.mount.
  destruct (truthy_str sid); simpl; (split; [| done]); intros c Hin.
  - apply list_elem_of_singleton in Hin. by subst.
  - by apply elem_of_nil in Hin.
Qed.

Lemma first_render_only_step (w w' : World) (ev : Event) :
  first_render_only w -> step w ev = Some w' -> first_render_only w'.
Proof.
  intros (Hcl & Hst & Htr) Hs. destruct ev as [i reply | i |].
  - pose proof Hs as Hs'.
    apply step_settle in Hs' as (c & Hc & Hi & Ht & Htr' & _).
    assert (cl_attempts c = 0) as Hc0.
    { apply Hcl, elem_of_app. left. by eapply list_elem_of_lookup_2. }
    assert (cl_attempts c < maxAttempts) as Hlt by (rewrite Hc0; unfold maxAttempts; lia).
    pose proof (resume_below_bound c reply Hlt) as Hcases. simpl in Hcases.
    unfold PaymentSuccess.step in Hs. rewrite Hc in Hs. simpl in Hs.
    injection Hs as Hw'.
    repeat split.
    + intros c' Hin. rewrite Hi, Ht in Hin.
      apply elem_of_app in Hin as [Hin | Hin].
      * apply Hcl, elem_of_app. left. by eapply list_elem_of_delete_inv.
      * apply elem_of_app in Hin as [Hin | Hin].
        { apply Hcl, elem_of_app. by right. }
        destruct Hcases as [H | [H | H]]; simpl in Hin; rewrite H in Hin;
          simpl in Hin; try by apply elem_of_nil in Hin.
        apply list_elem_of_singleton in Hin. by subst.
    + rewrite <- Hw'.
      match goal with |- status (hooks (foldl perform ?w0 ?effs)) ≠ _ =>
        destruct (performs_status effs w0) as [H | H] end.
      * by rewrite H.
      * intros Heq. rewrite Heq in H.
        destruct Hcases as [H' | [H' | H']]; rewrite H' in H;
          repeat (apply elem_of_cons in H as [H | H]; [done |]);
          by apply elem_of_nil in H.
    + rewrite Htr', filter_app, Htr. simpl.
      destruct Hcases as [H | [H | H]]; rewrite H; reflexivity.
  - apply step_fire in Hs as (c & Hc & Hi & Ht & Htr' & _ & Hh).
    repeat split.
    + intros c' Hin. rewrite Hi, Ht in Hin.
      apply Hcl. apply elem_of_app in Hin as [Hin | Hin].
      * apply elem_of_app in Hin as [Hin | Hin]; [apply elem_of_app; by left |].
        apply list_elem_of_singleton in Hin. subst.
        apply elem_of_app. right. by eapply list_elem_of_lookup_2.
      * apply elem_of_app. right. by eapply list_elem_of_delete_inv.
    + by rewrite Hh.
    + by rewrite Htr', filter_app, Htr.
  - apply step_unmount in Hs as (_ & _ & Hi & Ht & Htr' & Hh).
    unfold first_render_only. by rewrite Hi, Ht, Htr', Hh.
Qed.

(** No schedule whatsoever brings the poller to [timeout]. *)
Lemma timeout_unreachable (sid : option string) (evs : list Event) (w : World) :
  run (mount sid) evs = Some w ->
  status (hooks w) ≠ timeout ∧ filter (λ e, is_timeout e = true) (trace w) = [].
Proof.
  intros Hr. cut (first_render_only w); [by intros (_ & ? & ?) |].
  pose proof (first_render_only_mount sid) as H0.
  revert H0 Hr. generalize (mount sid).
  induction evs as [| ev evs IH]; intros w0 H0; simpl.
  - by intros [= <-].
  - destruct (step w0 ev) as [w1 |] eqn:Hs; simpl; [| done].
    apply IH. by eapply first_render_only_step.
Qed.

(** *** Teardown *)

(** C2, amended.  Leaving the page cancels nothing: the timers that were
    pending are still pending, and when one expires its callback runs and
    issues the status query as it would have on the mounted page.  What
    does hold is that from the teardown on the hook state of the component
    no longer changes. *)
Theorem unmount_does_not_cancel (w w1 : World) :
  step w Unmount = Some w1 ->
  timers w1 = timers w ∧
  (∀ i c, timers w !! i = Some c ->
     ∃ w2, step w1 (Fire i) = Some w2 ∧
           trace w2 = trace w1 ++ [GetStatus (request (pollPaymentStatus c))] ∧
           queries w2 = S (queries w1)) ∧
  (∀ evs w', run w1 evs = Some w' -> hooks w' = hooks w).
Proof.
  intros Hs. apply step_unmount in Hs as (_ & Hm1 & _ & Ht & _ & Hh).
  split; [done |]. split.
  - intros i c Hc. rewrite <- Ht in Hc.
    unfold PaymentSuccess.step. rewrite Hc. simpl.
    eexists. split; [reflexivity |]. split; [reflexivity |].
    unfold queries. simpl. rewrite filter_app, length_app. simpl. lia.
  - intros evs w' Hr. apply (unmounted_run _ _ _ Hm1) in Hr as [_ ->]. done.
Qed.

End Poller.

(** ** Concrete runs *)

Lemma one_query_in_flight_witness :
  ∃ w, PaymentSuccess.run "https://backend.example" {[ "token" := "abc" ]}
         (PaymentSuccess.mount "https://backend.example" {[ "token" := "abc" ]} (Some "cs_1"))
         [PaymentSuccess.Settle 0 (Js.Fulfilled (PaymentSuccess.body "unpaid"));
          PaymentSuccess.Fire 0] = Some w ∧
       length (PaymentSuccess.inflight w) ≤ 1 ∧
       PaymentSuccess.queries w = 1 + length (PaymentSuccess.inflight w).
Proof.
  eexists. split; [vm_compute; reflexivity |].
  refine (let H := one_query_in_flight "https://backend.example" {[ "token" := "abc" ]}
                     (Some "cs_1")
                     [PaymentSuccess.Settle 0 (Js.Fulfilled (PaymentSuccess.body "unpaid"));
                      PaymentSuccess.Fire 0] _ _ in _).
  destruct H as (H1 & H2 & _). split; [exact H1 | exact H2].
  Unshelve. vm_compute; reflexivity.
Defined.

Lemma paid_on_first_query_witness :
  ∃ w, PaymentSuccess.step "https://backend.example" ∅
         (PaymentSuccess.mount "https://backend.example" ∅ (Some "cs_1"))
         (PaymentSuccess.Settle 0 (Js.Fulfilled (PaymentSuccess.body "paid"))) = Some w ∧
       PaymentSuccess.status (PaymentSuccess.hooks w) = PaymentSuccess.success ∧
       PaymentSuccess.queries w = 1.
Proof.
  destruct (paid_on_first_query "https://backend.example" ∅ (Some "cs_1")
              (PaymentSuccess.body "paid")) as (w & Hs & Hst & _ & Hq & _).
  - reflexivity.
  - vm_compute; reflexivity.
  - exists w. auto.
Defined.

Lemma query_error_is_terminal_witness :
  ∃ w, PaymentSuccess.step "https://backend.example" ∅
         (PaymentSuccess.mount "https://backend.example" ∅ (Some "cs_1"))
         (PaymentSuccess.Settle 0 (Js.Rejected {| Js.response := Js.JUndefined |})) = Some w ∧
       PaymentSuccess.status (PaymentSuccess.hooks w) = PaymentSuccess.error ∧
       PaymentSuccess.pending w = 0.
Proof.
  eexists. split; [vm_compute; reflexivity |].
  refine (let H := query_error_is_terminal "https://backend.example" ∅ (Some "cs_1") []
                     _ _ 0 {| Js.response := Js.JUndefined |} eq_refl eq_refl _ in _).
  destruct H as (H1 & _ & H3 & _). split; [exact H1 | exact H3].
  Unshelve. vm_compute; reflexivity.
Defined.

(** Six not-paid answers: the seventh query is out and the state is still
    [checking]. *)
Lemma never_paid_keeps_polling_witness :
  ∃ w, PaymentSuccess.run "https://backend.example" ∅
         (PaymentSuccess.mount "https://backend.example" ∅ (Some "cs_1"))
         (PaymentSuccess.never_paid (replicate 6 (PaymentSuccess.body "unpaid"))) = Some w ∧
       PaymentSuccess.queries w = 7 ∧
       PaymentSuccess.status (PaymentSuccess.hooks w) = PaymentSuccess.checking ∧
       PaymentSuccess.attempts (PaymentSuccess.hooks w) = 6.
Proof.
  destruct (never_paid_keeps_polling "https://backend.example" ∅ (Some "cs_1")
              (replicate 6 (PaymentSuccess.body "unpaid")))
    as (w & Hr & Hq & Hst & Ha & _).
  - reflexivity.
  - repeat constructor.
  - exists w. auto.
Defined.

Lemma unmount_does_not_cancel_witness :
  ∃ w w1 w2,
    PaymentSuccess.step "https://backend.example" ∅
      (PaymentSuccess.mount "https://backend.example" ∅ (Some "cs_1"))
      (PaymentSuccess.Settle 0 (Js.Fulfilled (PaymentSuccess.body "unpaid"))) = Some w ∧
    PaymentSuccess.step "https://backend.example" ∅ w PaymentSuccess.Unmount = Some w1 ∧
    PaymentSuccess.step "https://backend.example" ∅ w1 (PaymentSuccess.Fire 0) = Some w2 ∧
    PaymentSuccess.queries w2 = S (PaymentSuccess.queries w1).
Proof.
  evar (w : PaymentSuccess.World).
  assert (PaymentSuccess.step "https://backend.example" ∅
            (PaymentSuccess.mount "https://backend.example" ∅ (Some "cs_1"))
            (PaymentSuccess.Settle 0 (Js.Fulfilled (PaymentSuccess.body "unpaid")))
          = Some w) as Hw by (unfold w; vm_compute; reflexivity).
  evar (w1 : PaymentSuccess.World).
  assert (PaymentSuccess.step "https://backend.example" ∅ w PaymentSuccess.Unmount
          = Some w1) as Hw1 by (unfold w, w1; vm_compute; reflexivity).
  destruct (unmount_does_not_cancel "https://backend.example" ∅ w w1 Hw1)
    as (_ & Hfire & _).
  destruct (Hfire 0 (PaymentSuccess.render (Some "cs_1") PaymentSuccess.initial))
    as (w2 & Hs2 & _ & Hq2); [unfold w; vm_compute; reflexivity |].
  exists w, w1, w2. auto.
Defined.

(** C2, as stated, fails.  The first query answers not-paid, so a re-query
    is scheduled; the page is left while the poller is [checking]; the
    timer then expires, and the second query goes out from the unmounted
    component. *)
Lemma unmount_keeps_timer_cex :
  let run := PaymentSuccess.run "https://backend.example" ∅ in
  let mounted_page := PaymentSuccess.mount "https://backend.example" ∅ (Some "cs_1") in
  let unpaid := Js.Fulfilled (PaymentSuccess.body "unpaid") in
  let left := run mounted_page [PaymentSuccess.Settle 0 unpaid; PaymentSuccess.Unmount] in
  let fired := run mounted_page [PaymentSuccess.Settle 0 unpaid; PaymentSuccess.Unmount;
                                 PaymentSuccess.Fire 0] in
  PaymentSuccess.mounted <$> left = Some false ∧
  (PaymentSuccess.status ∘ PaymentSuccess.hooks) <$> left = Some PaymentSuccess.checking ∧
  (length ∘ PaymentSuccess.timers) <$> left = Some 1 ∧
  PaymentSuccess.queries <$> left = Some 1 ∧
  PaymentSuccess.queries <$> fired = Some 2 ∧
  (last ∘ PaymentSuccess.trace) <$> fired
    = Some (Some (PaymentSuccess.GetStatus
                    (api.getStatus "https://backend.example" ∅ (Some "cs_1")))).
Proof. repeat split; vm_compute; reflexivity. Qed.


(* ===================================================================== *)
(** * Further properties of the poller *)
(* ===================================================================== *)

Section PollerMore.
Import Js PaymentSuccess.
Variable BACKEND_URL : string.
Variable localStorage : gmap string string.

Abbreviation pollPaymentStatus := (pollPaymentStatus BACKEND_URL localStorage).
Abbreviation mount := (mount BACKEND_URL localStorage).
Abbreviation step := (step BACKEND_URL localStorage).
Abbreviation run := (run BACKEND_URL localStorage).

(** Without a usable [session_id] in the URL (absent, or empty) the effect
    does nothing: no query is ever issued and the page stays in its initial
    [checking] state whatever happens next. *)
Theorem no_session_id_idle (sid : option string) (evs : list Event) (w : World) :
  truthy_str sid = false ->
  run (mount sid) evs = Some w ->
  queries w = 0 ∧ hooks w = initial ∧ trace w = [] ∧ pending w = 0.
Proof.
  intros Hsid Hr.
  assert (pending (mount sid) = 0) as Hp0
    by (unfold PaymentSuccess.mount; by rewrite Hsid).
  pose proof (run_pending BACKEND_URL localStorage _ _ _ Hr) as Hp.
  destruct (quiescent_run BACKEND_URL localStorage _ _ _ Hp0 Hr) as (Hq & Hh & Ht).
  rewrite Hq, Hh, Ht. unfold PaymentSuccess.mount. rewrite Hsid.
  repeat split. lia.
Qed.

Lemma settle_paid (w : World) (c : Closure) (data : JsVal) :
  mounted w = true -> inflight w = [c] -> timers w = [] ->
  get_prop data "payment_status" = Some (JStr "paid") ->
  ∃ w', step w (Settle 0 (Fulfilled data)) = Some w' ∧
        status (hooks w') = success ∧
        pending w' = 0 ∧
        trace w' = trace w ++ [SetStatus success; ToastSuccess "Payment successful!"].
Proof.
  intros Hm Hi Ht Hd. unfold PaymentSuccess.step. rewrite Hi. simpl. rewrite Hd. simpl.
  eexists. split; [reflexivity |].
  unfold set_hooks, pending. simpl. rewrite Hm, Ht. simpl.
  repeat split. by rewrite <- app_assoc.
Qed.

Lemma run_one (w w' : World) (ev : Event) :
  step w ev = Some w' -> run w [ev] = Some w'.
Proof. simpl. by intros ->. Qed.

(** A session that answers not-paid any number of times and then [paid]:
    the poller reaches [success] with exactly one query per answer, and
    nothing is left pending.  The number of not-paid answers is not
    bounded. *)
Theorem paid_after_not_paid (sid : option string) (replies : list JsVal) (data : JsVal) :
  truthy_str sid = true ->
  Forall (λ d, not_paid d = true) replies ->
  get_prop data "payment_status" = Some (JStr "paid") ->
  ∃ w, run (mount sid) (never_paid replies ++ [Settle 0 (Fulfilled data)]) = Some w ∧
       status (hooks w) = success ∧
       queries w = S (length replies) ∧
       pending w = 0 ∧
       last (trace w) = Some (ToastSuccess "Payment successful!").
Proof.
  intros Hsid Hall Hd.
  destruct (not_paid_rounds BACKEND_URL localStorage replies (mount sid) (render sid initial))
    as (w1 & Hr1 & Hm1 & Hi1 & Ht1 & _ & _ & Hq1 & _); try done.
  1-3: unfold PaymentSuccess.mount; by rewrite Hsid.
  { unfold maxAttempts. simpl. lia. }
  destruct (settle_paid w1 _ data Hm1 Hi1 Ht1 Hd) as (w2 & Hs2 & Hst2 & Hp2 & Htr2).
  exists w2. split.
  { rewrite (run_app BACKEND_URL localStorage _ _ _ _ Hr1). by apply run_one. }
  repeat split; try done.
  - rewrite (queries_app _ _ _ Htr2), Hq1. simpl.
    unfold PaymentSuccess.mount. rewrite Hsid.
    change (queries (call BACKEND_URL localStorage _ _)) with 1. lia.
  - rewrite Htr2.
    change [SetStatus success; ToastSuccess "Payment successful!"]
      with ([SetStatus success] ++ [ToastSuccess "Payment successful!"]).
    rewrite app_assoc. apply last_snoc.
Qed.

(** In a reachable world the poller is either still [checking] or has
    nothing pending. *)
Lemma settled_or_checking_step (w w' : World) (ev : Event) :
  pending w ≤ 1 ->
  status (hooks w) = checking ∨ pending w = 0 ->
  step w ev = Some w' ->
  status (hooks w') = checking ∨ pending w' = 0.
Proof.
  intros Hp1 Hor Hs.
  destruct (decide (pending w = 0)) as [Hp0 | Hp0].
  { right. apply (step_pending BACKEND_URL localStorage) in Hs. lia. }
  destruct Hor as [Hst | ?]; [| done].
  destruct ev as [i reply | i |].
  - pose proof Hs as Hs'.
    apply (step_settle BACKEND_URL localStorage) in Hs' as (c & Hc & Hi & Ht & _ & _).
    pose proof (length_delete_Some _ _ _ Hc) as Hlen.
    unfold PaymentSuccess.step in Hs. rewrite Hc in Hs.
    cbn [mbind option_bind] in Hs. injection Hs as Hw'.
    destruct (resume_cases BACKEND_URL localStorage c reply) as [H | [H | [H | H]]].
    1, 2, 4: right; unfold pending in *; rewrite Hi, Ht, H; simpl;
             rewrite app_nil_r; lia.
    left. simpl in H. rewrite <- Hw', H.
    match goal with |- status (hooks (foldl perform ?w0 ?effs)) = _ =>
      destruct (performs_status effs w0) as [H' | H'] end.
    + by rewrite H'.
    + repeat (apply elem_of_cons in H' as [H' | H']; [done |]).
      by apply elem_of_nil in H'.
  - apply (step_fire BACKEND_URL localStorage) in Hs as (c & _ & _ & _ & _ & _ & Hh).
    left. by rewrite Hh.
  - apply (step_unmount BACKEND_URL localStorage) in Hs as (_ & _ & _ & _ & _ & Hh).
    left. by rewrite Hh.
Qed.

Lemma settled_or_checking_run (evs : list Event) (w w' : World) :
  pending w ≤ 1 ->
  status (hooks w) = checking ∨ pending w = 0 ->
  run w evs = Some w' ->
  status (hooks w') = checking ∨ pending w' = 0.
Proof.
  revert w. induction evs as [| ev evs IH]; intros w Hp Hor; simpl.
  - by intros [= <-].
  - destruct (step w ev) as [w1 |] eqn:Hs; simpl; [| done].
    apply IH.
    + apply (step_pending BACKEND_URL localStorage) in Hs. lia.
    + by eapply settled_or_checking_step.
Qed.

(** The states other than [checking] are terminal on every schedule: as
    soon as the state is [success], [error] or [timeout], no request is in
    flight and no timer is set, so no later event issues a query or changes
    the state. *)
Theorem terminal_is_quiescent (sid : option string) (evs : list Event) (w : World) :
  run (mount sid) evs = Some w ->
  status (hooks w) ≠ checking ->
  pending w = 0 ∧
  (∀ evs' w', run w evs' = Some w' -> queries w' = queries w ∧ hooks w' = hooks w).
Proof.
  intros Hr Hst.
  destruct (mount_pending BACKEND_URL localStorage sid) as [Hp0 _].
  assert (pending w = 0) as Hp.
  { destruct (settled_or_checking_run evs (mount sid) w Hp0) as [? | ?]; try done.
    left. unfold PaymentSuccess.mount. by destruct (truthy_str sid). }
  split; [done |]. intros evs' w' Hr'.
  destruct (quiescent_run BACKEND_URL localStorage _ _ _ Hp Hr') as (? & ? & _). done.
Qed.

(** A success response whose body is [null] or [undefined] is handled like
    a failed request: reading [payment_status] throws inside the [try], the
    [catch] block sets [error] and shows the failure toast, and nothing is
    scheduled. *)
Theorem unreadable_body_is_error (sid : option string) (evs : list Event)
    (w w' : World) (i : nat) (data : JsVal) :
  run (mount sid) evs = Some w ->
  mounted w = true ->
  nullish data = true ->
  step w (Settle i (Fulfilled data)) = Some w' ->
  status (hooks w') = error ∧
  trace w' = trace w ++ [SetStatus error; ToastError "Failed to verify payment status"] ∧
  pending w' = 0.
Proof.
  intros Hr Hm Hn Hs.
  pose proof (run_pending BACKEND_URL localStorage _ _ _ Hr) as Hp.
  destruct (mount_pending BACKEND_URL localStorage sid) as [Hp0 _].
  assert (get_prop data "payment_status" = None) as Hd by (by destruct data).
  pose proof Hs as Hs'.
  apply (step_settle BACKEND_URL localStorage) in Hs' as (c & Hc & Hi & Ht & Htr & _).
  simpl in Ht, Htr. rewrite Hd in Ht, Htr.
  pose proof (length_delete_Some _ _ _ Hc) as Hlen.
  repeat split.
  - unfold PaymentSuccess.step in Hs. rewrite Hc in Hs. simpl in Hs. rewrite Hd in Hs.
    injection Hs as <-. simpl. unfold set_hooks. simpl. by rewrite Hm.
  - done.
  - unfold pending in *. rewrite Hi, Ht. simpl. rewrite app_nil_r. lia.
Qed.

End PollerMore.


(* ===================================================================== *)
(** * The API objects, logout and session restore *)
(* ===================================================================== *)

Section ApiMore.
Import Js axios.
Variable BACKEND_URL : string.

Lemma authenticated_headers (localStorage : gmap string string)
    (a : apiCalls.Args) (c : Call) :
  c ∈ apiCalls.authenticated BACKEND_URL localStorage a ->
  sent_headers c = api.getAuthHeaders localStorage.
Proof.
  unfold apiCalls.authenticated. intros H.
  repeat (apply elem_of_cons in H as [-> | H]; [reflexivity |]).
  by apply elem_of_nil in H.
Qed.

Lemma api_calls_authorization_aux (localStorage : gmap string string)
    (a : apiCalls.Args) (c : Call) :
  (c ∈ apiCalls.authenticated BACKEND_URL localStorage a ->
     localStorage !! "token" = None ∨ localStorage !! "token" = Some "" ->
     sent_headers c = ∅) ∧
  (c ∈ apiCalls.anonymous BACKEND_URL a -> sent_headers c = ∅).
Proof.
  split.
  - intros H. rewrite (authenticated_headers _ _ _ H). apply getAuthHeaders_none.
  - unfold apiCalls.anonymous. intros H.
    repeat (apply elem_of_cons in H as [-> | H]; [done |]).
    by apply elem_of_nil in H.
Qed.

(** Every call of [api.js] other than [register] and [login] passes the
    headers of [getAuthHeaders]: exactly [Authorization: Bearer <token>]
    for a non-empty stored token, nothing otherwise.  [register] and
    [login] pass no config object at all. *)
Theorem api_calls_authorization (localStorage : gmap string string)
    (a : apiCalls.Args) (c : Call) :
  (c ∈ apiCalls.authenticated BACKEND_URL localStorage a ->
     (∀ t, localStorage !! "token" = Some t -> t ≠ "" ->
           sent_headers c = {[ "Authorization" := "Bearer " +:+ t ]}) ∧
     (localStorage !! "token" = None ∨ localStorage !! "token" = Some "" ->
           sent_headers c = ∅)) ∧
  (c ∈ apiCalls.anonymous BACKEND_URL a -> config c = None ∧ sent_headers c = ∅).
Proof.
  split.
  - intros H. rewrite (authenticated_headers _ _ _ H). split.
    + apply getAuthHeaders_token.
    + apply getAuthHeaders_none.
  - unfold apiCalls.anonymous. intros H.
    repeat (apply elem_of_cons in H as [-> | H]; [done |]).
    by apply elem_of_nil in H.
Qed.

(** Identifiers are spliced into the URL as they are, without encoding: an
    organization id that ends in [/members] makes [getOne] issue the very
    call [getMembers] issues for the id without that ending. *)
Theorem path_parameters_verbatim (localStorage : gmap string string) (orgId : string) :
  organizationAPI.getOne BACKEND_URL localStorage (orgId +:+ "/members")
  = organizationAPI.getMembers BACKEND_URL localStorage orgId ∧
  organizationAPI.getOne BACKEND_URL localStorage (orgId +:+ "/stats")
  = organizationAPI.getStats BACKEND_URL localStorage orgId.
Proof. split; reflexivity. Qed.

Lemma storage_after_logout (storage : gmap string string) :
  Dashboard.storage_after storage Dashboard.handleLogout
  = delete "user" (delete "token" storage).
Proof. reflexivity. Qed.

(** [handleLogout] removes the entries [token] and [user] from the storage
    and leaves every other entry as it was; the user handed to [App] is
    [null] and the navigation goes to [/auth]. *)
Theorem logout_removes_credentials_only (storage : gmap string string) (user : JsVal) :
  let storage' := Dashboard.storage_after storage Dashboard.handleLogout in
  storage' !! "token" = None ∧
  storage' !! "user" = None ∧
  (∀ k, k ≠ "token" -> k ≠ "user" -> storage' !! k = storage !! k) ∧
  Dashboard.user_after user Dashboard.handleLogout = JNull ∧
  Dashboard.Navigate "/auth" ∈ Dashboard.handleLogout.
Proof.
  intros storage'. unfold storage'. rewrite storage_after_logout. repeat split.
  - rewrite lookup_delete_ne by done. apply lookup_delete_eq.
  - apply lookup_delete_eq.
  - intros k H1 H2. by rewrite !lookup_delete_ne.
  - unfold Dashboard.handleLogout.
    repeat first [apply list_elem_of_here | apply list_elem_of_further].
Qed.

(** After [handleLogout], whatever the storage held before, no call of
    [api.js] carries an [Authorization] header. *)
Theorem logout_then_no_authorization (storage : gmap string string)
    (a : apiCalls.Args) (c : Call) :
  let storage' := Dashboard.storage_after storage Dashboard.handleLogout in
  c ∈ apiCalls.anonymous BACKEND_URL a ++ apiCalls.authenticated BACKEND_URL storage' a ->
  sent_headers c !! "Authorization" = None.
Proof.
  intros storage' Hin.
  destruct (api_calls_authorization_aux storage' a c) as [Hauth Hanon].
  apply elem_of_app in Hin as [Hin | Hin].
  - by rewrite (Hanon Hin).
  - rewrite (Hauth Hin); [done |]. left.
    unfold storage'. rewrite storage_after_logout.
    rewrite lookup_delete_ne by done. apply lookup_delete_eq.
Qed.

End ApiMore.


Section Session.
Import Js App.
Variable JSON_parse : string -> option JsVal.

(** A user is restored on load only from a storage that holds both a
    non-empty [token] and a non-empty [user] entry, and then it is the
    parsed [user] entry; in every case where the effect completes,
    [loading] ends up false. *)
Theorem restore_needs_token_and_user (localStorage : gmap string string) (st : State) :
  restore JSON_parse localStorage = Some st ->
  loading st = false ∧
  (truthy (user st) = true ->
     ∃ t u, localStorage !! "token" = Some t ∧ t ≠ "" ∧
            localStorage !! "user" = Some u ∧ u ≠ "" ∧
            JSON_parse u = Some (user st)).
Proof.
  unfold restore. intros H.
  destruct (localStorage !! "token") as [t |] eqn:Ht; simpl in H;
    [| injection H as <-; by split].
  destruct (decide (t = "")) as [-> | Hne]; [injection H as <-; by split |].
  rewrite bool_decide_eq_false_2 in H by done. simpl in H.
  destruct (localStorage !! "user") as [u |] eqn:Hu; simpl in H;
    [| injection H as <-; by split].
  destruct (decide (u = "")) as [-> | Hne']; [injection H as <-; by split |].
  rewrite bool_decide_eq_false_2 in H by done. simpl in H.
  destruct (JSON_parse u) as [v |] eqn:Hv; simpl in H; [| done].
  injection H as <-. split; [done |]. intros _. by exists t, u.
Qed.

(** A page other than the login page is rendered only for a truthy [user]
    and once loading is over; the login page only without a user. *)
Theorem protected_pages_need_user (st : State) (r : Route) (p : Page) :
  App st r = Render p ->
  loading st = false ∧
  (if protected p then truthy (user st) = true else truthy (user st) = false).
Proof.
  unfold App, element, ProtectedRoute.
  destruct (loading st); [done |].
  destruct r, (truthy (user st)); simpl; intros [= <-]; done.
Qed.

(** A redirect never leads to another redirect: the entry it points to
    renders a page in the same state. *)
Theorem redirects_land_on_a_page (st : State) (r r' : Route) :
  App st r = NavigateTo r' ->
  ∃ p, App st r' = Render p.
Proof.
  unfold App, element, ProtectedRoute.
  destruct (loading st); [done |].
  destruct r, (truthy (user st)) eqn:Hu; simpl; intros [= <-]; simpl;
    rewrite ?Hu; simpl; eauto.
Qed.

(** Reloading the application after [handleLogout]: the restore effect
    completes without calling [JSON.parse], there is no user, and the only
    page any location can render is the login page. *)
Theorem logout_then_reload (storage : gmap string string) :
  let storage' := Dashboard.storage_after storage Dashboard.handleLogout in
  restore JSON_parse storage' = Some {| user := JNull; loading := false |} ∧
  (∀ r p, App {| user := JNull; loading := false |} r = Render p -> p = AuthPage) ∧
  (∀ r, r ≠ AuthRoute -> r ≠ NoMatch ->
        App {| user := JNull; loading := false |} r = NavigateTo AuthRoute).
Proof.
  intros storage'. repeat split.
  - unfold restore, storage'. rewrite storage_after_logout.
    rewrite lookup_delete_ne by done. by rewrite lookup_delete_eq.
  - intros r p. destruct r; simpl; intros [= <-]; done.
  - intros r H1 H2. by destruct r.
Qed.

End Session.

Lemma restore_needs_token_and_user_witness :
  ∃ t u, ({[ "token" := "abc"; "user" := "{}" ]} : gmap string string) !! "token" = Some t ∧
         t ≠ "" ∧
         ({[ "token" := "abc"; "user" := "{}" ]} : gmap string string) !! "user" = Some u ∧
         u ≠ "" ∧
         (λ _, Some (Js.JObj ∅)) u = Some (Js.JObj ∅).
Proof.
  refine (proj2 (restore_needs_token_and_user (λ _, Some (Js.JObj ∅))
                   {[ "token" := "abc"; "user" := "{}" ]}
                   {| App.user := Js.JObj ∅; App.loading := false |} _) _).
  - vm_compute. reflexivity.
  - reflexivity.
Defined.

Lemma protected_pages_need_user_witness :
  App.loading {| App.user := Js.JObj ∅; App.loading := false |} = false ∧
  Js.truthy (App.user {| App.user := Js.JObj ∅; App.loading := false |}) = true.
Proof.
  exact (protected_pages_need_user {| App.user := Js.JObj ∅; App.loading := false |}
           (App.TasksRoute "org-42") (App.TasksPage "org-42") eq_refl).
Defined.

Lemma redirects_land_on_a_page_witness :
  ∃ p, App.App {| App.user := Js.JNull; App.loading := false |} App.AuthRoute = App.Render p.
Proof.
  exact (redirects_land_on_a_page {| App.user := Js.JNull; App.loading := false |}
           App.PaymentSuccessRoute App.AuthRoute eq_refl).
Defined.


(* ===================================================================== *)
(** * Organization page: loading and inviting *)
(* ===================================================================== *)

(** Membership in an effect list that is written out. *)
Ltac in_list :=
  repeat first [apply list_elem_of_here | apply list_elem_of_further].

Ltac not_in_list :=
  let H := fresh "H" in
  intros H;
  repeat (apply elem_of_cons in H as [H | H]; [discriminate H |]);
  by apply elem_of_nil in H.

Section OrganizationMore.
Import Js Handlers OrganizationData.
Variable BACKEND_URL : string.
Variable localStorage : gmap string string.
Variable orgId : string.

Abbreviation fetchData := (fetchData BACKEND_URL localStorage orgId).
Abbreviation handleInvite := (handleInvite BACKEND_URL localStorage orgId).

(** [fetchData] always sends its three requests and always ends with
    [loading] false.  The organization, its members and its statistics are
    replaced together, by the three response bodies, when all three
    requests are fulfilled; if any of them is rejected, none of the three
    is touched and the error toast is shown.  The dialogs and the selected
    package are never touched. *)
Theorem fetchData_all_or_nothing (st : OrganizationPage.State)
    (orgRes membersRes statsRes : Settled) :
  let effs := fetchData orgRes membersRes statsRes in
  let st' := page_after st effs in
  calls effs = [organizationAPI.getOne BACKEND_URL localStorage orgId;
                organizationAPI.getMembers BACKEND_URL localStorage orgId;
                organizationAPI.getStats BACKEND_URL localStorage orgId] ∧
  OrganizationPage.loading st' = false ∧
  OrganizationPage.inviteDialogOpen st' = OrganizationPage.inviteDialogOpen st ∧
  OrganizationPage.paymentDialogOpen st' = OrganizationPage.paymentDialogOpen st ∧
  OrganizationPage.selectedPackage st' = OrganizationPage.selectedPackage st ∧
  match all_fulfilled [orgRes; membersRes; statsRes] with
  | Some bodies =>
      bodies = [OrganizationPage.organization st'; OrganizationPage.members st';
                OrganizationPage.stats st'] ∧
      ToastError (JStr "Failed to load organization data") ∉ effs
  | None =>
      OrganizationPage.organization st' = OrganizationPage.organization st ∧
      OrganizationPage.members st' = OrganizationPage.members st ∧
      OrganizationPage.stats st' = OrganizationPage.stats st ∧
      ToastError (JStr "Failed to load organization data") ∈ effs
  end.
Proof.
  destruct st.
  destruct orgRes, membersRes, statsRes; simpl; repeat split;
    solve [in_list | not_in_list].
Qed.

(** [handleInvite] sends one request, the invitation for the organization
    of the route with the [email] and [role] of the form.  When it is
    fulfilled the dialog is closed, the data reloaded and the form reset;
    when it is rejected the page state is left as it was, nothing is
    reloaded, the form keeps its content, and the toast shows the
    backend's [detail] if there is a truthy one. *)
Theorem handleInvite_outcomes (st : OrganizationPage.State) (form : FormData)
    (reply : Settled) :
  let effs := handleInvite form reply in
  calls effs = [organizationAPI.invite BACKEND_URL localStorage orgId
                  (JObj {[ "email" := of_nullable (form !! "email");
                           "role" := of_nullable (form !! "role") ]})] ∧
  match reply with
  | Fulfilled _ =>
      OrganizationPage.inviteDialogOpen (page_after st effs) = false ∧
      FetchData ∈ effs ∧ FormReset ∈ effs ∧
      ∀ msg, ToastError msg ∉ effs
  | Rejected error =>
      page_after st effs = st ∧
      (FetchData ∉ effs) ∧ (FormReset ∉ effs) ∧
      ToastError (detail_or error "Failed to invite member") ∈ effs
  end.
Proof.
  destruct st, reply; simpl; repeat split;
    solve [in_list | not_in_list | intros msg; not_in_list].
Qed.

End OrganizationMore.


(* ===================================================================== *)
(** * Tasks page *)
(* ===================================================================== *)

Section TasksMore.
Import Js Handlers TasksPage.
Variable BACKEND_URL : string.
Variable localStorage : gmap string string.
Variable parseInt : string -> JsVal.
Variable to_template : JsVal -> string.
Variable orgId : string.

Abbreviation task_data := (task_data parseInt).
Abbreviation handleCreateTask :=
  (handleCreateTask BACKEND_URL localStorage parseInt orgId).
Abbreviation handleUpdateTask :=
  (handleUpdateTask BACKEND_URL localStorage parseInt to_template orgId).
Abbreviation handleDeleteTask :=
  (handleDeleteTask BACKEND_URL localStorage to_template orgId).

(** The filter tabs are mutually exclusive in the query: [fetchData] sends
    at most one parameter.  [my-tasks] sends [assigned_to_me], [daily]
    sends [is_daily], the three status names send themselves as [status],
    and any other filter ([all] in particular) sends no parameter. *)
Theorem fetch_params_exclusive (activeFilter : string) :
  size (fetch_params activeFilter) ≤ 1 ∧
  (activeFilter = "my-tasks" ->
     fetch_params activeFilter = {[ "assigned_to_me" := JBool true ]}) ∧
  (activeFilter = "daily" ->
     fetch_params activeFilter = {[ "is_daily" := JBool true ]}) ∧
  (activeFilter ∈ ["pending"; "about_to_do"; "completed"] ->
     fetch_params activeFilter = {[ "status" := JStr activeFilter ]}) ∧
  (activeFilter ∉ ["my-tasks"; "daily"; "pending"; "about_to_do"; "completed"] ->
     fetch_params activeFilter = ∅).
Proof.
  unfold fetch_params.
  destruct (decide (activeFilter = "my-tasks")) as [-> | H1].
  { split; [by vm_compute |].
    repeat split; try done; intros H; exfalso;
      first [by revert H; not_in_list | apply H; in_list]. }
  destruct (decide (activeFilter = "daily")) as [-> | H2].
  { split; [by vm_compute |].
    repeat split; try done; intros H; exfalso;
      first [by revert H; not_in_list | apply H; in_list]. }
  rewrite (bool_decide_eq_false_2 _ H1), (bool_decide_eq_false_2 _ H2).
  case_bool_decide as H3.
  - split; [by rewrite insert_empty, map_size_singleton |].
    repeat split; try done.
    intros H. exfalso. apply H. by do 2 apply list_elem_of_further.
  - split; [rewrite map_size_empty; lia |].
    repeat split; done.
Qed.



(** The task list is reloaded exactly when a change went through: after a
    fulfilled create, update or confirmed delete, and never after a
    rejected one.  A delete that is not confirmed sends nothing at all,
    and an update without a task being edited sends nothing either. *)
Theorem tasks_refetched_iff_fulfilled (form : FormData) (editingTask taskId : JsVal)
    (confirmed : bool) (reply : Settled) :
  (FetchData ∈ handleCreateTask form reply ↔ ∃ body, reply = Fulfilled body) ∧
  (FetchData ∈ handleUpdateTask editingTask form reply
     ↔ nullish editingTask = false ∧ ∃ body, reply = Fulfilled body) ∧
  (FetchData ∈ handleDeleteTask taskId confirmed reply
     ↔ confirmed = true ∧ ∃ body, reply = Fulfilled body) ∧
  calls (handleDeleteTask taskId false reply) = [] ∧
  (nullish editingTask = true -> calls (handleUpdateTask editingTask form reply) = []).
Proof.
  repeat split.
  - destruct reply; simpl; [eauto |]. not_in_list.
  - intros [body ->]. simpl. in_list.
  - destruct editingTask; simpl in *; try done; exfalso; revert H; not_in_list.
  - destruct editingTask, reply; simpl in *; eauto; exfalso; revert H; not_in_list.
  - intros [Hn [body ->]]. destruct editingTask; simpl in *; try done; in_list.
  - destruct confirmed; [done |]. simpl in H. exfalso. revert H. not_in_list.
  - destruct confirmed, reply; simpl in *; eauto; exfalso; revert H; not_in_list.
  - intros [-> [body ->]]. simpl. in_list.
  - intros Hn. by destruct editingTask.
Qed.

(** [fetchData] of the tasks page sends the task query with the
    parameters of the active filter together with the member query, and
    always finishes by clearing [loading].  The task list and the member
    list are replaced together when both requests are fulfilled; if either
    is rejected neither list is set and the error toast is shown. *)
Theorem tasks_fetch_all_or_nothing (activeFilter : string) (tasksRes membersRes : Settled) :
  let effs := fetchData BACKEND_URL localStorage orgId activeFilter tasksRes membersRes in
  calls effs = [taskAPI.getAll BACKEND_URL localStorage orgId
                  (JObj (fetch_params activeFilter));
                organizationAPI.getMembers BACKEND_URL localStorage orgId] ∧
  match tasksRes, membersRes with
  | Fulfilled tasks, Fulfilled members =>
      filter (λ e, is_setter e = true) effs
        = [SetTasks tasks; SetMembers members; SetLoading false] ∧
      ToastError (JStr "Failed to load tasks") ∉ effs
  | _, _ =>
      filter (λ e, is_setter e = true) effs = [SetLoading false] ∧
      ToastError (JStr "Failed to load tasks") ∈ effs
  end.
Proof.
  destruct tasksRes, membersRes; simpl; (split; [reflexivity |]); split;
    solve [reflexivity | in_list | not_in_list].
Qed.

End TasksMore.


(* ===================================================================== *)
(** * Admin page *)
(* ===================================================================== *)

Section AdminMore.
Import Js Handlers AdminPage.
Variable BACKEND_URL : string.
Variable localStorage : gmap string string.

Lemma shown_toggle (prev : gmap string bool) (keyName other : string) :
  shown (toggleSecretVisibility keyName prev) other
  = if decide (other = keyName) then negb (shown prev keyName) else shown prev other.
Proof.
  unfold toggleSecretVisibility. unfold shown at 1.
  destruct (decide (other = keyName)) as [-> | Hne].
  - by rewrite lookup_insert_eq.
  - by rewrite lookup_insert_ne.
Qed.

Lemma shown_fresh (keyName : string) :
  shown ∅ keyName = bool_decide (keyName ∈ object_prototype_members).
Proof. unfold shown. by rewrite lookup_empty. Qed.

(** One click on the eye button of an entry flips what
    [showSecrets[key_name]] evaluates to for that entry and changes it for
    no other entry. *)
Theorem toggle_flips_one_entry (prev : gmap string bool) (keyName other : string) :
  shown (toggleSecretVisibility keyName prev) keyName = negb (shown prev keyName) ∧
  (other ≠ keyName ->
     shown (toggleSecretVisibility keyName prev) other = shown prev other).
Proof.
  split.
  - rewrite shown_toggle. by destruct (decide (keyName = keyName)).
  - intros Hne. rewrite shown_toggle. by destruct (decide (other = keyName)).
Qed.

(** Two clicks on the same eye button bring every entry back to what it
    displayed before. *)
Theorem toggle_twice_restores (prev : gmap string bool) (keyName : string)
    (config : ConfigEntry) :
  description (toggleSecretVisibility keyName (toggleSecretVisibility keyName prev)) config
  = description prev config.
Proof.
  unfold description. rewrite !shown_toggle.
  destruct (decide (key_name config = keyName)) as [-> | Hne]; [| done].
  destruct (decide (keyName = keyName)); [| done].
  by rewrite negb_involutive.
Qed.

(** A secret entry whose key is not the name of a member of
    [Object.prototype] shows the bullets on a fresh page and its value
    after one click on its eye button; an entry that is not secret shows
    its value whatever [showSecrets] holds. *)
Theorem secrets_hidden_by_default (config : ConfigEntry) (showSecrets : gmap string bool) :
  (truthy (is_secret config) = true ->
   key_name config ∉ object_prototype_members ->
     description (AdminPage.showSecrets initial) config = Bullets ∧
     description (toggleSecretVisibility (key_name config) (AdminPage.showSecrets initial))
                 config = Plain (value config)) ∧
  (truthy (is_secret config) = false ->
     description showSecrets config = Plain (value config)).
Proof.
  split.
  - intros Hs Hk. unfold description. rewrite Hs, shown_toggle.
    destruct (decide (key_name config = key_name config)); [| done].
    change (AdminPage.showSecrets initial) with (∅ : gmap string bool).
    rewrite shown_fresh, bool_decide_eq_false_2 by done. done.
  - intros Hs. unfold description. by rewrite Hs.
Qed.

(** A secret entry named like a member of [Object.prototype]
    ([constructor], [toString], ...) is shown in clear on a fresh page:
    the lookup in the empty [showSecrets] object finds the inherited
    member, which is truthy.  The first click on its eye button hides
    it. *)
Theorem inherited_names_shown_in_clear (config : ConfigEntry) :
  truthy (is_secret config) = true ->
  key_name config ∈ object_prototype_members ->
  description (AdminPage.showSecrets initial) config = Plain (value config) ∧
  description (toggleSecretVisibility (key_name config) (AdminPage.showSecrets initial))
              config = Bullets.
Proof.
  intros Hs Hk. unfold description. rewrite Hs, shown_toggle.
  destruct (decide (key_name config = key_name config)); [| done].
  change (AdminPage.showSecrets initial) with (∅ : gmap string bool).
  rewrite shown_fresh, bool_decide_eq_true_2 by done. done.
Qed.

(** [fetchConfigs] always ends with [loading] false and never touches
    [showSecrets].  A fulfilled request stores the body and grants access;
    a rejected one keeps the list, and takes access away exactly when the
    response status is 403: any other failure leaves [hasAccess] as it
    was. *)
Theorem access_denied_only_on_403 (st : State) (reply : Settled) :
  let st' := page_after st (fetchConfigs BACKEND_URL localStorage reply) in
  loading st' = false ∧
  showSecrets st' = showSecrets st ∧
  createDialogOpen st' = createDialogOpen st ∧
  match reply with
  | Fulfilled body => configs st' = body ∧ hasAccess st' = true
  | Rejected error =>
      configs st' = configs st ∧
      (opt_chain (response error) "status" = JNum 403 -> hasAccess st' = false) ∧
      (opt_chain (response error) "status" ≠ JNum 403 -> hasAccess st' = hasAccess st)
  end.
Proof.
  intros st'. unfold st', fetchConfigs.
  destruct reply as [body | err]; simpl; [done |].
  destruct (opt_chain (response err) "status") as [| | b | n | s | l | o] eqn:E;
    simpl; try done.
  destruct (n =? 403)%Z eqn:En; simpl.
  - apply Z.eqb_eq in En as ->. done.
  - apply Z.eqb_neq in En. repeat split; try done. intros [= ->]. done.
Qed.

(** The configuration list is reloaded exactly when a change went
    through: after a fulfilled save or a fulfilled, confirmed delete.  A
    delete that is not confirmed sends nothing; a confirmed one sends one
    request, for the key of the card. *)
Theorem configs_refetched_iff_fulfilled (form : gmap string string) (keyName : string)
    (confirmed : bool) (reply : Settled) :
  (FetchConfigs ∈ handleCreateConfig BACKEND_URL localStorage form reply
     ↔ ∃ body, reply = Fulfilled body) ∧
  (FetchConfigs ∈ handleDeleteConfig BACKEND_URL localStorage keyName confirmed reply
     ↔ confirmed = true ∧ ∃ body, reply = Fulfilled body) ∧
  calls (handleDeleteConfig BACKEND_URL localStorage keyName confirmed reply)
    = (if confirmed then [adminAPI.deleteConfig BACKEND_URL localStorage keyName] else []).
Proof.
  split; [| split].
  - split.
    + destruct reply; simpl; [eauto |]. intros H. exfalso. revert H. not_in_list.
    + intros [body ->]. simpl. in_list.
  - split.
    + destruct confirmed, reply; simpl; eauto; intros H; exfalso; revert H; not_in_list.
    + intros [-> [body ->]]. simpl. in_list.
  - by destruct confirmed, reply.
Qed.

End AdminMore.


(* ===================================================================== *)
(** * Concrete instances *)
(* ===================================================================== *)

Lemma no_session_id_idle_witness :
  ∃ w, PaymentSuccess.run "https://backend.example" ∅
         (PaymentSuccess.mount "https://backend.example" ∅ None)
         [PaymentSuccess.Unmount] = Some w ∧
       PaymentSuccess.queries w = 0 ∧
       PaymentSuccess.hooks w = PaymentSuccess.initial.
Proof.
  eexists. split; [vm_compute; reflexivity |].
  refine (let H := no_session_id_idle "https://backend.example" ∅ None
                     [PaymentSuccess.Unmount] _ eq_refl _ in _).
  destruct H as (H1 & H2 & _). split; [exact H1 | exact H2].
  Unshelve. vm_compute; reflexivity.
Defined.

Lemma paid_after_not_paid_witness :
  ∃ w, PaymentSuccess.run "https://backend.example" ∅
         (PaymentSuccess.mount "https://backend.example" ∅ (Some "cs_1"))
         (PaymentSuccess.never_paid (replicate 3 (PaymentSuccess.body "unpaid"))
          ++ [PaymentSuccess.Settle 0 (Js.Fulfilled (PaymentSuccess.body "paid"))])
       = Some w ∧
       PaymentSuccess.status (PaymentSuccess.hooks w) = PaymentSuccess.success ∧
       PaymentSuccess.queries w = 4.
Proof.
  destruct (paid_after_not_paid "https://backend.example" ∅ (Some "cs_1")
              (replicate 3 (PaymentSuccess.body "unpaid")) (PaymentSuccess.body "paid"))
    as (w & Hr & Hst & Hq & _).
  - reflexivity.
  - repeat constructor.
  - vm_compute; reflexivity.
  - exists w. auto.
Defined.

Lemma terminal_is_quiescent_witness :
  ∃ w, PaymentSuccess.run "https://backend.example" ∅
         (PaymentSuccess.mount "https://backend.example" ∅ (Some "cs_1"))
         [PaymentSuccess.Settle 0 (Js.Fulfilled (PaymentSuccess.body "paid"))] = Some w ∧
       PaymentSuccess.pending w = 0.
Proof.
  eexists. split; [vm_compute; reflexivity |].
  refine (let H := terminal_is_quiescent "https://backend.example" ∅ (Some "cs_1")
                     [PaymentSuccess.Settle 0 (Js.Fulfilled (PaymentSuccess.body "paid"))]
                     _ _ _ in _).
  exact (proj1 H).
  Unshelve.
  - vm_compute; reflexivity.
  - vm_compute. discriminate.
Defined.

Lemma unreadable_body_is_error_witness :
  ∃ w, PaymentSuccess.step "https://backend.example" ∅
         (PaymentSuccess.mount "https://backend.example" ∅ (Some "cs_1"))
         (PaymentSuccess.Settle 0 (Js.Fulfilled Js.JNull)) = Some w ∧
       PaymentSuccess.status (PaymentSuccess.hooks w) = PaymentSuccess.error ∧
       PaymentSuccess.pending w = 0.
Proof.
  eexists. split; [vm_compute; reflexivity |].
  refine (let H := unreadable_body_is_error "https://backend.example" ∅ (Some "cs_1") []
                     _ _ 0 Js.JNull eq_refl eq_refl eq_refl _ in _).
  destruct H as (H1 & _ & H3). split; [exact H1 | exact H3].
  Unshelve. vm_compute; reflexivity.
Defined.

Lemma api_calls_authorization_witness :
  axios.sent_headers (taskAPI.delete "https://backend.example" {[ "token" := "abc" ]}
                        "org-42" "t-7")
  = {[ "Authorization" := "Bearer abc" ]}.
Proof.
  refine (proj1 (proj1 (api_calls_authorization "https://backend.example"
                          {[ "token" := "abc" ]}
                          {| apiCalls.a_data := Js.JNull; apiCalls.a_query := Js.JNull;
                             apiCalls.a_orgId := "org-42"; apiCalls.a_taskId := "t-7";
                             apiCalls.a_keyName := "K"; apiCalls.a_userId := "u-1";
                             apiCalls.a_sessionId := None |} _) _) "abc" _ _).
  - unfold apiCalls.authenticated. do 11 apply list_elem_of_further.
    apply list_elem_of_here.
  - reflexivity.
  - discriminate.
Defined.

Lemma logout_then_no_authorization_witness :
  axios.sent_headers
    (adminAPI.getConfig "https://backend.example"
       (Dashboard.storage_after {[ "token" := "abc"; "user" := "{}" ]}
          Dashboard.handleLogout))
    !! "Authorization" = None.
Proof.
  refine (logout_then_no_authorization "https://backend.example"
            {[ "token" := "abc"; "user" := "{}" ]}
            {| apiCalls.a_data := Js.JNull; apiCalls.a_query := Js.JNull;
               apiCalls.a_orgId := "org-42"; apiCalls.a_taskId := "t-7";
               apiCalls.a_keyName := "K"; apiCalls.a_userId := "u-1";
               apiCalls.a_sessionId := None |} _ _).
  apply elem_of_app. right. unfold apiCalls.authenticated.
  do 14 apply list_elem_of_further. apply list_elem_of_here.
Defined.

Lemma inherited_names_shown_in_clear_witness :
  AdminPage.description ∅
    {| AdminPage.key_name := "constructor"; AdminPage.value := Js.JStr "s3cr3t";
       AdminPage.is_secret := Js.JBool true |}
  = AdminPage.Plain (Js.JStr "s3cr3t").
Proof.
  refine (proj1 (inherited_names_shown_in_clear
                   {| AdminPage.key_name := "constructor";
                      AdminPage.value := Js.JStr "s3cr3t";
                      AdminPage.is_secret := Js.JBool true |} eq_refl _)).
  apply list_elem_of_here.
Defined.
